(** * Multilingual sentiment analyzer: text preprocessing and inference wrapper

    A shallow embedding of [src/preprocessing/text_processor.py] and
    [src/models/sentiment_model.py].

    - A Python [str] is a list of Unicode code points ([N]).
    - [re.sub], [str.split], [str.join] and [str.strip] are modelled by
      executable functions on such lists.
    - The Unicode tables the code reads through [unicodedata.normalize],
      [str.lower] and the non-ASCII part of the regex class [\w] are a
      parameter ([UnicodeTables]).
    - Exceptions are values of [exn] carried by the [result] type.
    - Model logits and softmax scores are real numbers. *)

From Stdlib Require Import List Bool Arith NArith ZArith QArith Lia String Ascii.
From Stdlib Require Import Reals Lra.
Import ListNotations.

Close Scope R_scope.
Close Scope Q_scope.
Open Scope nat_scope.
Open Scope list_scope.

Set Implicit Arguments.

(** ** Python strings *)

Module Py.

Definition codepoint := N.
Bind Scope N_scope with codepoint.
Definition str := list codepoint.

(** ASCII literals, for readable examples. *)
Definition lit (s : string) : str := map N_of_ascii (list_ascii_of_string s).

Definition in_range (lo hi c : codepoint) : bool := ((lo <=? c) && (c <=? hi))%N.

(** [str.isspace] on one character: the whitespace set used by
    [str.split()] and [str.strip()] when called without arguments. *)
Definition is_space (c : codepoint) : bool :=
  in_range 0x09 0x0D c || in_range 0x1C 0x1F c || (c =? 0x20)%N
  || (c =? 0x85)%N || (c =? 0xA0)%N || (c =? 0x1680)%N
  || in_range 0x2000 0x200A c || (c =? 0x2028)%N || (c =? 0x2029)%N
  || (c =? 0x202F)%N || (c =? 0x205F)%N || (c =? 0x3000)%N.

(** [text.split()]: maximal runs of non-whitespace characters.  [cur] is the
    word being read, most recent character first. *)
Fixpoint split_from (cur : str) (s : str) : list str :=
  match s with
  | [] => match cur with [] => [] | _ => [rev cur] end
  | c :: r =>
      if is_space c then
        match cur with
        | [] => split_from [] r
        | _ => rev cur :: split_from [] r
        end
      else split_from (c :: cur) r
  end.

Definition split (s : str) : list str := split_from [] s.

(** [sep.join(words)]. *)
Fixpoint join (sep : str) (words : list str) : str :=
  match words with
  | [] => []
  | w :: rest =>
      match rest with
      | [] => w
      | _ => w ++ sep ++ join sep rest
      end
  end.

Fixpoint lstrip (s : str) : str :=
  match s with
  | [] => []
  | c :: r => if is_space c then lstrip r else s
  end.

Definition rstrip (s : str) : str := rev (lstrip (rev s)).

(** [text.strip()]. *)
Definition strip (s : str) : str := rstrip (lstrip s).

(** Length of the longest prefix of [s] whose characters all satisfy [p]:
    what a greedy [[class]*] consumes. *)
Fixpoint run_length (p : codepoint -> bool) (s : str) : nat :=
  match s with
  | [] => 0
  | c :: r => if p c then S (run_length p r) else 0
  end.

Fixpoint strip_prefix (p s : str) : option str :=
  match p with
  | [] => Some s
  | a :: p' =>
      match s with
      | [] => None
      | c :: r => if (a =? c)%N then strip_prefix p' r else None
      end
  end.

(** [pattern.sub(repl, text)] for a pattern without anchors or look-around.
    [match_at s] is the length of the match that starts at the head of [s],
    if there is one; [repl] maps the matched text to its replacement.  The
    scan goes left to right; after a match of [S n] characters at [c :: r]
    the next [n] characters of [r] are consumed ([skip]) before matching
    resumes.  None of the patterns of the program matches the empty string. *)
Section Sub.
Variable match_at : str -> option nat.
Variable repl : str -> str.

Fixpoint sub_from (skip : nat) (s : str) : str :=
  match s with
  | [] => []
  | c :: r =>
      match skip with
      | S k => sub_from k r
      | 0 =>
          match match_at s with
          | Some (S n) => repl (firstn (S n) s) ++ sub_from n r
          | _ => c :: sub_from 0 r
          end
      end
  end.

Definition sub (s : str) : str := sub_from 0 s.
End Sub.

(** [len(re.findall('[class]', text))]. *)
Definition count (p : codepoint -> bool) (s : str) : nat :=
  List.length (filter p s).

End Py.

(** ** Unicode tables read by the text processor *)

Record UnicodeTables := {
  (** [unicodedata.normalize('NFKC', text)] *)
  nfkc : Py.str -> Py.str;
  (** [text.lower()] *)
  lower : Py.str -> Py.str;
  (** [str.isalnum] on a character outside ASCII *)
  isalnum_wide : Py.codepoint -> bool
}.

(** ** src/preprocessing/text_processor.py *)

Module TextProcessor.
Import Py.

Section WithTables.
Variable U : UnicodeTables.

Definition is_ascii_alpha (c : codepoint) : bool :=
  in_range 0x61 0x7A c || in_range 0x41 0x5A c.
Definition is_ascii_digit (c : codepoint) : bool := in_range 0x30 0x39 c.
Definition is_hex (c : codepoint) : bool :=
  is_ascii_digit c || in_range 0x61 0x66 c || in_range 0x41 0x46 c.

(** The regex class [\w] on [str] patterns: alphanumerics and the
    underscore.  On ASCII this is [[a-zA-Z0-9_]]; elsewhere the Unicode
    table decides. *)
Definition is_word (c : codepoint) : bool :=
  if (c <? 0x80)%N then is_ascii_alpha c || is_ascii_digit c || (c =? 0x5F)%N
  else isalnum_wide U c.

(** One iteration of the group of [url_pattern]:
    [(?:[a-zA-Z]|[0-9]|[$-_@.&+]|[!*\\(\\),]|(?:%[0-9a-fA-F][0-9a-fA-F]))],
    alternatives tried in order; the result is the number of characters
    consumed. *)
Definition url_unit (s : str) : option nat :=
  match s with
  | [] => None
  | c :: r =>
      if is_ascii_alpha c then Some 1
      else if is_ascii_digit c then Some 1
      else if in_range 0x24 0x5F c || (c =? 0x40)%N || (c =? 0x2E)%N
              || (c =? 0x26)%N || (c =? 0x2B)%N then Some 1
      else if (c =? 0x21)%N || (c =? 0x2A)%N || (c =? 0x5C)%N || (c =? 0x28)%N
              || (c =? 0x29)%N || (c =? 0x2C)%N then Some 1
      else if (c =? 0x25)%N then
        match r with
        | h1 :: h2 :: _ => if is_hex h1 && is_hex h2 then Some 3 else None
        | _ => None
        end
      else None
  end.

(** The greedy [(...)+] of [url_pattern]: number of characters consumed by
    repeating [url_unit] as long as it matches. *)
Fixpoint url_body (skip : nat) (s : str) : nat :=
  match s with
  | [] => 0
  | _ :: r =>
      match skip with
      | S k => S (url_body k r)
      | 0 =>
          match url_unit s with
          | Some (S n) => S (url_body n r)
          | _ => 0
          end
      end
  end.

(** The part of [url_pattern] after [http[s]?]: [://] followed by at least
    one unit. *)
Definition url_tail (consumed : nat) (s : str) : option nat :=
  match strip_prefix (lit "://") s with
  | Some body =>
      match url_body 0 body with
      | 0 => None
      | n => Some (consumed + 3 + n)
      end
  | None => None
  end.

(** [url_pattern]: [http], an optional [s] (tried first, then without), and
    the tail. *)
Definition url_pattern (s : str) : option nat :=
  match strip_prefix (lit "http") s with
  | None => None
  | Some r =>
      match r with
      | c :: r' =>
          if (c =? 0x73)%N then
            match url_tail 5 r' with
            | Some n => Some n
            | None => url_tail 4 r
            end
          else url_tail 4 r
      | [] => None
      end
  end.

(** [mention_pattern = @\w+] and [hashtag_pattern = #\w+]: the marker
    followed by a greedy non-empty run of word characters. *)
Definition match_marked (marker : codepoint) (s : str) : option nat :=
  match s with
  | [] => None
  | c :: r =>
      if (c =? marker)%N then
        match run_length is_word r with
        | 0 => None
        | n => Some (S n)
        end
      else None
  end.

Definition at_sign : codepoint := 0x40%N.
Definition hash_sign : codepoint := 0x23%N.

Definition mention_pattern : str -> option nat := match_marked at_sign.
Definition hashtag_pattern : str -> option nat := match_marked hash_sign.

(** The character class of [emoji_pattern]. *)
Definition is_emoji (c : codepoint) : bool :=
  in_range 0x1F600 0x1F64F c || in_range 0x1F300 0x1F5FF c
  || in_range 0x1F680 0x1F6FF c || in_range 0x1F1E0 0x1F1FF c
  || in_range 0x2702 0x27B0 c || in_range 0x24C2 0x1F251 c.

Definition emoji_pattern (s : str) : option nat :=
  match run_length is_emoji s with
  | 0 => None
  | n => Some n
  end.

Record CleaningOptions := {
  remove_urls : bool;
  remove_mentions : bool;
  remove_hashtags : bool;
  remove_emojis : bool;
  lowercase : bool;
  normalize_unicode : bool
}.

(** The keyword defaults of [clean_text]. *)
Definition default_options : CleaningOptions :=
  {| remove_urls := true; remove_mentions := true; remove_hashtags := false;
     remove_emojis := false; lowercase := false; normalize_unicode := true |}.

Definition delete (_ : str) : str := [].
(** The replacement [\1] of [#(\w+)]: the match without its first character. *)
Definition group1 (m : str) : str := tl m.

(** The text that reaches the hashtag step of [clean_text]. *)
Definition before_hashtags (o : CleaningOptions) (text : str) : str :=
  let text := if normalize_unicode o then nfkc U text else text in
  let text := if remove_urls o then sub url_pattern delete text else text in
  if remove_mentions o then sub mention_pattern delete text else text.

(** The hashtag step. *)
Definition hashtag_step (remove : bool) (text : str) : str :=
  if remove then sub hashtag_pattern delete text
  else sub hashtag_pattern group1 text.

(** The steps after the hashtag step. *)
Definition after_hashtags (o : CleaningOptions) (text : str) : str :=
  let text := if remove_emojis o then sub emoji_pattern delete text else text in
  let text := if lowercase o then lower U text else text in
  let text := join (lit " ") (split text) in
  strip text.

Definition clean_text (o : CleaningOptions) (text : str) : str :=
  match text with
  | [] => []
  | _ => after_hashtags o (hashtag_step (remove_hashtags o) (before_hashtags o text))
  end.

(** *** Language detection *)

Definition is_japanese (c : codepoint) : bool :=
  in_range 0x3040 0x309F c || in_range 0x30A0 0x30FF c || in_range 0x4E00 0x9FFF c.
Definition is_chinese (c : codepoint) : bool := in_range 0x4E00 0x9FFF c.
Definition is_korean (c : codepoint) : bool := in_range 0xAC00 0xD7AF c.
Definition is_latin (c : codepoint) : bool :=
  in_range 0x61 0x7A c || in_range 0x41 0x5A c.

Definition Qgtb (a b : Q) : bool := negb (Qle_bool a b).
Definition Qltb (a b : Q) : bool := negb (Qle_bool b a).

(** [_simple_language_detect].  The counts are integers.  Python computes
    [total * 0.3], [total * 0.1] and the confidence ratio in binary floating
    point; here they are exact rationals.  A count is compared with the
    product only, and for integer counts of realistic size the rounded
    product is the exact one whenever that is an integer and otherwise lies
    strictly between the same two integers, so the branch taken is the same. *)
Definition _simple_language_detect (text : str) : string * Q :=
  let japanese_chars := Z.of_nat (count is_japanese text) in
  let chinese_chars := Z.of_nat (count is_chinese text) in
  let korean_chars := Z.of_nat (count is_korean text) in
  let latin_chars := Z.of_nat (count is_latin text) in
  let total := (japanese_chars + chinese_chars + korean_chars + latin_chars)%Z in
  if (total =? 0)%Z then ("unknown"%string, 0%Q)
  else if Qgtb (inject_Z japanese_chars) (inject_Z total * (3 # 10)) then
    ("ja"%string, (inject_Z japanese_chars / inject_Z total)%Q)
  else if Qgtb (inject_Z korean_chars) (inject_Z total * (3 # 10)) then
    ("ko"%string, (inject_Z korean_chars / inject_Z total)%Q)
  else if Qgtb (inject_Z chinese_chars) (inject_Z total * (3 # 10))
          && Qltb (inject_Z japanese_chars) (inject_Z total * (1 # 10)) then
    ("zh"%string, (inject_Z chinese_chars / inject_Z total)%Q)
  else ("en"%string, (inject_Z latin_chars / inject_Z total)%Q).

End WithTables.

(** What [from langdetect import detect_langs; detect_langs(text)] does:
    the import fails, or the call raises, or it returns the candidate
    languages, best first. *)
Inductive raised := ImportError | OtherException.

Inductive detector :=
  | Unavailable
  | Available (detect_langs : str -> raised + list (string * Q)).

(** [detect_language]: the [try] body, then [except ImportError], then
    [except Exception]. *)
Definition detect_language (d : detector) (text : str) : string * Q :=
  match d with
  | Unavailable => _simple_language_detect text
  | Available detect_langs =>
      match detect_langs text with
      | inr (top_result :: _) => top_result
      | inr [] => ("unknown"%string, 0%Q)
      | inl ImportError => _simple_language_detect text
      | inl OtherException => ("unknown"%string, 0%Q)
      end
  end.

End TextProcessor.

(** ** Exceptions *)

Inductive exn :=
  | RuntimeError (msg : string)
  | TypeError
  | ValueError
  | IndexError
  | ExternalError (name : string).

Inductive result (A : Type) :=
  | Ok (a : A)
  | Raise (e : exn).
Arguments Ok {A} a.
Arguments Raise {A} e.

Definition bind {A B : Type} (r : result A) (k : A -> result B) : result B :=
  match r with
  | Ok a => k a
  | Raise e => Raise e
  end.

Declare Scope result_scope.
Delimit Scope result_scope with result.
Notation "x <- r ;; k" := (bind r (fun x => k))
  (at level 61, r at next level, right associativity) : result_scope.

Section Loops.
Local Open Scope result_scope.
Context {A B S : Type}.

(** A [for] loop over [l] that updates [s]; the first exception ends it. *)
Fixpoint for_each (body : S -> A -> result S) (l : list A) (s : S) : result S :=
  match l with
  | [] => Ok s
  | a :: r => s' <- body s a;; for_each body r s'
  end.

(** A list comprehension [[f x for x in l]]. *)
Fixpoint comprehension (f : A -> result B) (l : list A) : result (list B) :=
  match l with
  | [] => Ok []
  | a :: r => b <- f a;; bs <- comprehension f r;; Ok (b :: bs)
  end.

(** [l[i]] on a list or an array row. *)
Definition index (l : list A) (i : nat) : result A :=
  match nth_error l i with
  | Some a => Ok a
  | None => Raise IndexError
  end.

(** Calling an attribute that may still be [None]. *)
Definition callable (f : option A) : result A :=
  match f with
  | Some g => Ok g
  | None => Raise TypeError
  end.

Definition enumerate (l : list A) : list (nat * A) :=
  combine (seq 0 (List.length l)) l.
End Loops.

(** [range(0, stop, step)]. *)
Definition range0 (stop : nat) (step : Z) : result (list nat) :=
  if (step =? 0)%Z then Raise ValueError
  else if (step <? 0)%Z then Ok []
  else
    let k := Z.to_nat step in
    Ok (map (fun q => q * k) (seq 0 ((stop + k - 1) / k))).

(** ** src/models/sentiment_model.py *)

Module SentimentModel.
Local Open Scope result_scope.

(** The tokenizer output: named integer tensors ([input_ids],
    [attention_mask], ...). *)
Definition Encoding := list (string * list (list Z)).

Inductive tokenizer_input :=
  | Single (text : Py.str)
  | Batch (texts : list Py.str).

(** [tokenizer(input, return_tensors="pt", padding=..., truncation=True,
    max_length=512)]. *)
Definition Tokenizer := tokenizer_input -> forall padding : bool, result Encoding.

(** The forward pass, read at [outputs.logits]: one row of logits per
    sequence. *)
Definition Model := Encoding -> result (list (list R)).

Record Hub := {
  tokenizer_from_pretrained : string -> result Tokenizer;
  model_from_pretrained : string -> result Model
}.

Record MultilingualSentimentAnalyzer := {
  model_name : string;
  tokenizer : option Tokenizer;
  model : option Model;
  labels : list string
}.

(** The dictionary returned for one text.  [scores] is the dictionary built
    from [zip(self.labels, scores_np)], kept as the list of its items in
    insertion order (the labels are pairwise distinct). *)
Record AnalysisResult := {
  text : Py.str;
  sentiment : string;
  confidence : R;
  scores : list (string * R)
}.

Definition default_labels : list string :=
  ["negative"; "neutral"; "positive"]%string.

Definition __init__ (name : string) : MultilingualSentimentAnalyzer :=
  {| model_name := name; tokenizer := None; model := None;
     labels := default_labels |}.

(** [load_model]: the analyzer after the call, and how the call ended. *)
Definition load_model (hub : Hub) (self : MultilingualSentimentAnalyzer)
  : MultilingualSentimentAnalyzer * result unit :=
  match tokenizer_from_pretrained hub (model_name self) with
  | Raise e => (self, Raise e)
  | Ok t =>
      let self :=
        {| model_name := model_name self; tokenizer := Some t;
           model := model self; labels := labels self |} in
      match model_from_pretrained hub (model_name self) with
      | Raise e => (self, Raise e)
      | Ok m =>
          ({| model_name := model_name self; tokenizer := tokenizer self;
              model := Some m; labels := labels self |}, Ok tt)
      end
  end.

Definition sum_R (l : list R) : R := fold_right Rplus 0%R l.

(** [torch.nn.functional.softmax(row, dim=-1)]. *)
Definition softmax (row : list R) : list R :=
  let z := sum_R (map exp row) in
  map (fun x => (exp x / z)%R) row.

(** [np.argmax]: the first index of the greatest entry. *)
Fixpoint argmax_from (best_i : nat) (best : R) (i : nat) (l : list R) : nat :=
  match l with
  | [] => best_i
  | x :: r =>
      if Rlt_dec best x then argmax_from i x (S i) r
      else argmax_from best_i best (S i) r
  end.

Definition np_argmax (l : list R) : result nat :=
  match l with
  | [] => Raise ValueError
  | x :: r => Ok (argmax_from 0 x 1 r)
  end.

Definition np_max (l : list R) : result R :=
  match l with
  | [] => Raise ValueError
  | x :: r => Ok (fold_left Rmax r x)
  end.

(** The "Get predictions" part shared by both analysis paths. *)
Definition shape (self : MultilingualSentimentAnalyzer) (t : Py.str)
    (scores_np : list R) : result AnalysisResult :=
  i <- np_argmax scores_np;;
  predicted_label <- index (labels self) i;;
  c <- np_max scores_np;;
  Ok {| text := t; sentiment := predicted_label; confidence := c;
        scores := combine (labels self) scores_np |}.

Definition _analyze_single (self : MultilingualSentimentAnalyzer) (t : Py.str)
  : result AnalysisResult :=
  tok <- callable (tokenizer self);;
  inputs <- tok (Single t) false;;
  m <- callable (model self);;
  logits <- m inputs;;
  let scores := map softmax logits in
  scores_np <- index scores 0;;
  shape self t scores_np.

Definition analyze (self : MultilingualSentimentAnalyzer)
    (t : Py.str + list Py.str)
  : result (AnalysisResult + list AnalysisResult) :=
  match model self with
  | None => Raise (RuntimeError "Model not loaded. Call load_model() first.")
  | Some _ =>
      match t with
      | inl t => r <- _analyze_single self t;; Ok (inl r)
      | inr ts => rs <- comprehension (_analyze_single self) ts;; Ok (inr rs)
      end
  end.

(** The body of the outer loop of [analyze_batch]. *)
Definition analyze_chunk (self : MultilingualSentimentAnalyzer)
    (results : list AnalysisResult) (batch : list Py.str)
  : result (list AnalysisResult) :=
  tok <- callable (tokenizer self);;
  inputs <- tok (Batch batch) true;;
  m <- callable (model self);;
  logits <- m inputs;;
  let scores_np := map softmax logits in
  for_each
    (fun results jt =>
       row <- index scores_np (fst jt);;
       r <- shape self (snd jt) row;;
       Ok (results ++ [r]))
    (enumerate batch) results.

Definition analyze_batch (self : MultilingualSentimentAnalyzer)
    (texts : list Py.str) (batch_size : Z) : result (list AnalysisResult) :=
  starts <- range0 (List.length texts) batch_size;;
  for_each
    (fun results i =>
       analyze_chunk self results
         (firstn (Z.to_nat batch_size) (skipn i texts)))
    starts [].

End SentimentModel.

(** ** A finite excerpt of the Unicode tables

    Exact on texts made of ASCII characters, U+2026 (horizontal ellipsis,
    whose compatibility decomposition is three full stops), U+0130 (capital
    I with dot above, whose lowercase is [i] followed by U+0307) and the
    emoji U+1F60A.  It is used for concrete runs only. *)
Definition excerpt_tables : UnicodeTables :=
  {| nfkc := flat_map (fun c => if (c =? 0x2026)%N then [0x2E; 0x2E; 0x2E]%N else [c]);
     lower :=
       flat_map (fun c =>
                   if Py.in_range 0x41 0x5A c then [c + 0x20]%N
                   else if (c =? 0x130)%N then [0x69; 0x307]%N
                   else [c]);
     isalnum_wide := fun c => (c =? 0x130)%N |}.

(** ** Specification-side notions *)

Module Spec.
Import Py TextProcessor.

(** *** Whitespace shape of a cleaned text *)

Definition starts_with_space (s : str) : bool :=
  match s with
  | [] => false
  | c :: _ => is_space c
  end.

Definition ends_with_space (s : str) : bool := starts_with_space (rev s).

(** Two adjacent whitespace characters somewhere in [s]. *)
Fixpoint has_space_run (s : str) : bool :=
  match s with
  | [] => false
  | c :: r => (is_space c && starts_with_space r) || has_space_run r
  end.

(** A word in the sense of [str.split]: no whitespace inside. *)
Definition spaceless (w : str) : Prop :=
  forallb (fun c => negb (is_space c)) w = true.

(** *** Hashtag tokens, following the spec's words

    A text is read as a sequence of segments: a hashtag token is a [#]
    followed by a non-empty run of word characters that is not continued by
    a further word character; every other character stands for itself, and
    a [#] stands for itself only where no word character follows it. *)

Inductive segment :=
  | Plain (c : codepoint)
  | Hashtag (word : str).

Definition starts_with_word (U : UnicodeTables) (s : str) : bool :=
  match s with
  | [] => false
  | c :: _ => is_word U c
  end.

Inductive tokenized (U : UnicodeTables) : str -> list segment -> Prop :=
  | tokenized_nil : tokenized U [] []
  | tokenized_plain c s segs :
      (c =? hash_sign)%N && starts_with_word U s = false ->
      tokenized U s segs ->
      tokenized U (c :: s) (Plain c :: segs)
  | tokenized_hashtag w s segs :
      w <> [] ->
      forallb (is_word U) w = true ->
      starts_with_word U s = false ->
      tokenized U s segs ->
      tokenized U (hash_sign :: w ++ s) (Hashtag w :: segs).

(** The text with every hashtag token deleted. *)
Definition without_hashtags (segs : list segment) : str :=
  flat_map (fun g => match g with Plain c => [c] | Hashtag _ => [] end) segs.

(** The text with the [#] of every hashtag token deleted. *)
Definition with_bare_words (segs : list segment) : str :=
  flat_map (fun g => match g with Plain c => [c] | Hashtag w => w end) segs.

(** The text itself. *)
Definition rendered (segs : list segment) : str :=
  flat_map (fun g => match g with Plain c => [c] | Hashtag w => hash_sign :: w end) segs.

(** *** The shape of an analysis result *)

Import SentimentModel.

(** [v] is the greatest entry of [l] and [i] is the first index holding it. *)
Definition first_max (l : list R) (i : nat) (v : R) : Prop :=
  nth_error l i = Some v
  /\ (forall j y, nth_error l j = Some y -> (y <= v)%R)
  /\ (forall j y, j < i -> nth_error l j = Some y -> (y < v)%R).

Record well_shaped (r : AnalysisResult) : Prop := {
  shaped_labels : map fst (scores r) = default_labels;
  shaped_sum : (Rabs (sum_R (map snd (scores r)) - 1) <= 1 / 100000)%R;
  shaped_argmax :
    exists i, first_max (map snd (scores r)) i (confidence r)
              /\ nth_error (map fst (scores r)) i = Some (sentiment r);
  shaped_sentiment : In (sentiment r) default_labels
}.

(** The model boundary of the spec: one logit per label, for each of the three
    labels. *)
Definition three_way (m : Model) : Prop :=
  forall inputs rows, m inputs = Ok rows ->
    Forall (fun row => List.length row = 3) rows.

(** The model as a fixed function [f] from a text to its logits: a batch is
    answered row by row, whatever texts are padded together. *)
Definition black_box (tok : Tokenizer) (m : Model) (f : Py.str -> list R) : Prop :=
  (forall t, exists e, tok (Single t) false = Ok e /\ m e = Ok [f t])
  /\ (forall b, exists e, tok (Batch b) true = Ok e /\ m e = Ok (map f b)).

(** What every row of scores looks like when the model is three-way. *)
Definition softmax_of_three (row : list R) : Prop :=
  exists logits, row = softmax logits /\ List.length logits = 3.

(** An analyzer as [__init__] builds it, with a three-way model if any. *)
Definition model_three_way (self : MultilingualSentimentAnalyzer) : Prop :=
  labels self = default_labels /\ forall m, model self = Some m -> three_way m.

(** The analysis of one text when the model is the function [f]. *)
Definition analyze_text (self : MultilingualSentimentAnalyzer)
    (f : Py.str -> list R) (t : Py.str) : result AnalysisResult :=
  shape self t (softmax (f t)).

Definition loaded (self : MultilingualSentimentAnalyzer)
    (tok : Tokenizer) (m : Model) : Prop :=
  tokenizer self = Some tok /\ model self = Some m
  /\ labels self = default_labels.

End Spec.

(** ** Concrete inputs used in the examples *)

Module Samples.
Import Py TextProcessor.

(** The scenario of the integration test [test_cleaning_pipeline]. *)
Definition dirty : str :=
  lit "  Check out https://t.co/abc @user #test " ++ [0x1F60A%N] ++ lit "!!!  ".

Definition all_on : CleaningOptions :=
  {| remove_urls := true; remove_mentions := true; remove_hashtags := true;
     remove_emojis := true; lowercase := true; normalize_unicode := true |}.

Definition removals_only : CleaningOptions :=
  {| remove_urls := true; remove_mentions := true; remove_hashtags := true;
     remove_emojis := true; lowercase := false; normalize_unicode := false |}.

Definition lowercase_only : CleaningOptions :=
  {| remove_urls := false; remove_mentions := false; remove_hashtags := false;
     remove_emojis := false; lowercase := true; normalize_unicode := false |}.

Definition ellipsis : str := [0x2026%N].
Definition dotted_capital_i : str := [0x130%N].

Definition hello : str := lit "hello".
Definition hangul : str := [0xD55C; 0xAE00]%N.
Definition digits : str := lit "12345".
Definition url_only : str := lit "http://example.com".

(** A detector whose call raises an exception that is not an [ImportError]. *)
Definition raising_detector : detector :=
  Available (fun _ => inl OtherException).

(** A detector module that imports, and whose call fails on a late import. *)
Definition late_import_detector : detector :=
  Available (fun _ => inl ImportError).

(** An analyzer whose model answers every text with the logits of the unit
    tests' mock, [0.1, 0.3, 0.6]. *)
Import SentimentModel.

Definition mock_logits : list R := [1 / 10; 3 / 10; 6 / 10]%R.

Definition mock_tokenizer : Tokenizer :=
  fun input _ =>
    match input with
    | Single t => Ok [("input_ids"%string, [map Z.of_N t])]
    | Batch b => Ok [("input_ids"%string, map (map Z.of_N) b)]
    end.

Definition mock_model : Model :=
  fun inputs =>
    match inputs with
    | [(_, rows)] => Ok (map (fun _ => mock_logits) rows)
    | _ => Raise (ExternalError "forward")
    end.

Definition mock_hub : Hub :=
  {| tokenizer_from_pretrained := fun _ => Ok mock_tokenizer;
     model_from_pretrained := fun _ => Ok mock_model |}.

Definition default_model_name : string :=
  "cardiffnlp/twitter-xlm-roberta-base-sentiment".

Definition fresh_analyzer : MultilingualSentimentAnalyzer :=
  __init__ default_model_name.

Definition mock_analyzer : MultilingualSentimentAnalyzer :=
  fst (load_model mock_hub fresh_analyzer).

Definition three_texts : list str :=
  [lit "I love this!"; lit "I hate this!"; lit "It's okay."].

End Samples.

(** ** The rest of the program *)

(** *** [pattern.findall] *)

Module PyRe.
Import Py.

(** [pattern.findall(text)] for a pattern without groups, anchors or
    look-around: the matched texts, left to right, found by the same scan as
    [Py.sub]. *)
Section Findall.
Variable match_at : str -> option nat.

Fixpoint findall_from (skip : nat) (s : str) : list str :=
  match s with
  | [] => []
  | _ :: r =>
      match skip with
      | S k => findall_from k r
      | 0 =>
          match match_at s with
          | Some (S n) => firstn (S n) s :: findall_from n r
          | _ => findall_from 0 r
          end
      end
  end.

Definition findall (s : str) : list str := findall_from 0 s.
End Findall.

End PyRe.

(** *** The other methods of [TextProcessor] *)

Module TextProcessorTools.
Import Py PyRe TextProcessor.

Definition extract_emojis (text : str) : list str := findall emoji_pattern text.

(** [[tag[1:] for tag in self.hashtag_pattern.findall(text)]]. *)
Definition extract_hashtags (U : UnicodeTables) (text : str) : list str :=
  map (fun tag => tl tag) (findall (hashtag_pattern U) text).

Definition extract_mentions (U : UnicodeTables) (text : str) : list str :=
  map (fun mention => tl mention) (findall (mention_pattern U) text).

Definition tokenize_simple (text : str) : list str := split text.

(** [batch_clean]: the keyword arguments are the cleaning options. *)
Definition batch_clean (U : UnicodeTables) (o : CleaningOptions)
    (texts : list str) : list str :=
  map (fun text => clean_text U o text) texts.

(** The mention step of [clean_text] when it is enabled. *)
Definition remove_mentions_step (U : UnicodeTables) (text : str) : str :=
  sub (mention_pattern U) delete text.

(** The emoji step of [clean_text] when it is enabled. *)
Definition remove_emojis_step (text : str) : str := sub emoji_pattern delete text.

End TextProcessorTools.

(** *** [JapaneseProcessor] and [ChineseProcessor] *)

Module LanguageProcessors.
Import Py TextProcessor.

(** What the optional tokenizer library does with a text: the surfaces of
    [fugashi.Tagger()(text)], or [jieba.cut(text)]. *)
Definition Segmenter := str -> list str.

(** The attribute [self.tokenizer] of either subclass. *)
Record Processor := { tokenizer : option Segmenter }.

(** [__init__] of either subclass. *)
Definition new_processor : Processor := {| tokenizer := None |}.

(** [_get_tokenizer].  [library] is what the [import] inside the [try] gives:
    [None] when it raises [ImportError]. *)
Definition _get_tokenizer (library : option Segmenter) (self : Processor)
  : Processor * option Segmenter :=
  match tokenizer self with
  | Some t => (self, Some t)
  | None =>
      match library with
      | Some t => ({| tokenizer := Some t |}, Some t)
      | None => (self, None)
      end
  end.

Definition space : codepoint := 0x20%N.

(** [list(text.replace(' ', ''))]: one string per character other than
    U+0020. *)
Definition characters (text : str) : list str :=
  map (fun c => [c]) (filter (fun c => negb (c =? space)%N) text).

(** [tokenize] of either subclass. *)
Definition tokenize (library : option Segmenter) (self : Processor) (text : str)
  : Processor * list str :=
  let (self, tokenizer) := _get_tokenizer library self in
  match tokenizer with
  | Some t => (self, t text)
  | None => (self, characters text)
  end.

Definition newline : codepoint := 0x0A%N.

(** The pattern [(.)\1{2,}]: a character other than a newline followed by at
    least two more copies of itself, as many as there are. *)
Definition repeated_pattern (s : str) : option nat :=
  match s with
  | [] => None
  | c :: r =>
      if (c =? newline)%N then None
      else
        let n := run_length (fun d => (d =? c)%N) r in
        if 2 <=? n then Some (S n) else None
  end.

(** The replacement [\1\1]. *)
Definition twice (m : str) : str :=
  match m with
  | [] => []
  | c :: _ => [c; c]
  end.

(** The regex step of [normalize_japanese]. *)
Definition squeeze (text : str) : str := sub repeated_pattern twice text.

Definition normalize_japanese (U : UnicodeTables) (text : str) : str :=
  squeeze (nfkc U text).

(** [convert_traditional_to_simplified]; [hanziconv] is [HanziConv.toSimplified]
    when the import succeeds. *)
Definition convert_traditional_to_simplified (hanziconv : option (str -> str))
    (text : str) : str :=
  match hanziconv with
  | Some toSimplified => toSimplified text
  | None => text
  end.

End LanguageProcessors.

(** *** src/api/main.py *)

Module Api.
Import SentimentModel.

(** What a request handler gives back: a body, or the [HTTPException] it
    raises.  [detail] stands for [str(e)] of the exception [e] it keeps. *)
Inductive response (A : Type) :=
  | Returns (body : A)
  | HTTPException (status_code : nat) (detail : exn).
Arguments Returns {A} body.
Arguments HTTPException {A} status_code detail.

(** Reading an attribute of [None]. *)
Definition AttributeError : exn := ExternalError "AttributeError".

(** [startup_event]: the global [analyzer] after the call, and how the call
    ended.  The global is assigned before [load_model] runs. *)
Definition startup_event (hub : Hub)
  : option MultilingualSentimentAnalyzer * result unit :=
  let analyzer := __init__ "cardiffnlp/twitter-xlm-roberta-base-sentiment" in
  let (analyzer, outcome) := load_model hub analyzer in
  (Some analyzer, outcome).

(** [POST /analyze]. *)
Definition analyze_text (analyzer : option MultilingualSentimentAnalyzer)
    (request_text : Py.str)
  : response (AnalysisResult + list AnalysisResult) :=
  match analyzer with
  | None => HTTPException 500 AttributeError
  | Some a =>
      match analyze a (inl request_text) with
      | Ok result => Returns result
      | Raise e => HTTPException 500 e
      end
  end.

Record BatchResponse := {
  results : list AnalysisResult;
  count : nat
}.

(** [POST /analyze/batch]. *)
Definition analyze_batch (analyzer : option MultilingualSentimentAnalyzer)
    (request_texts : list Py.str) (request_batch_size : Z)
  : response BatchResponse :=
  match analyzer with
  | None => HTTPException 500 AttributeError
  | Some a =>
      match SentimentModel.analyze_batch a request_texts request_batch_size with
      | Ok rs => Returns {| results := rs; count := List.length rs |}
      | Raise e => HTTPException 500 e
      end
  end.

End Api.

(** *** src/run.py: the pure parts of [batch_command] *)

Module Cli.
Import Py SentimentModel.
Local Open Scope result_scope.

(** [[line.strip() for line in f if line.strip()]]. *)
Definition read_texts (lines : list str) : list str :=
  map strip (filter (fun line => match strip line with [] => false | _ => true end) lines).

Definition KeyError : exn := ExternalError "KeyError".
Definition ZeroDivisionError : exn := ExternalError "ZeroDivisionError".

(** [sentiment_counts[key] += 1] on the dictionary kept as its items. *)
Fixpoint increment (counts : list (string * nat)) (key : string)
  : result (list (string * nat)) :=
  match counts with
  | [] => Raise KeyError
  | (k, n) :: rest =>
      if String.eqb k key then Ok ((k, S n) :: rest)
      else rest' <- increment rest key;; Ok ((k, n) :: rest')
  end.

Definition initial_counts : list (string * nat) :=
  [("positive", 0); ("neutral", 0); ("negative", 0)]%string.

(** The first loop of the summary. *)
Definition count_sentiments (rs : list AnalysisResult) : result (list (string * nat)) :=
  for_each (fun counts r => increment counts (sentiment r)) rs initial_counts.

(** [(count / len(results)) * 100]. *)
Definition percentage (n total : nat) : result Q :=
  match total with
  | 0 => Raise ZeroDivisionError
  | _ => Ok ((inject_Z (Z.of_nat n) / inject_Z (Z.of_nat total)) * 100)%Q
  end.

(** The summary of [batch_command]: for each sentiment, in the order of the
    dictionary, its count and its percentage. *)
Definition summary (rs : list AnalysisResult) : result (list (string * nat * Q)) :=
  counts <- count_sentiments rs;;
  comprehension
    (fun kn => p <- percentage (snd kn) (List.length rs);; Ok (fst kn, snd kn, p))
    counts.

(** What [batch_command] computes between reading the file and printing:
    the texts of the file, their analysis, and the summary. *)
Definition batch_command (analyzer : MultilingualSentimentAnalyzer)
    (lines : list str) (batch_size : Z) : result (list (string * nat * Q)) :=
  let texts := read_texts lines in
  results <- analyze_batch analyzer texts batch_size;;
  summary results.

End Cli.

(** *** Specification-side notions for the rest of the program *)

Module SpecTools.
Import Py TextProcessor Spec LanguageProcessors.

(** The words of the hashtag tokens of a reading. *)
Definition hashtag_words (segs : list segment) : list str :=
  flat_map (fun g => match g with Plain _ => [] | Hashtag w => [w] end) segs.

Definition total_length (l : list str) : nat := list_sum (map (@List.length _) l).

(** Three equal adjacent characters, other than newlines, somewhere in [s]. *)
Fixpoint has_triple (s : str) : bool :=
  match s with
  | [] => false
  | a :: r =>
      match r with
      | b :: c :: _ => (a =? b)%N && (b =? c)%N && negb (a =? newline)%N
      | _ => false
      end
      || has_triple r
  end.

(** The first character of [s] is not [c]. *)
Definition not_headed (c : codepoint) (s : str) : bool :=
  match s with
  | [] => true
  | d :: _ => negb (d =? c)%N
  end.

(** What [squeeze] makes of a maximal run of [k] copies of [c]. *)
Definition squeezed_run (c : codepoint) (k : nat) : str :=
  if (c =? newline)%N || (k <? 3) then repeat c k else [c; c].

(** Somewhere in [s] the marker [m] is followed by a word character. *)
Fixpoint has_marked (U : UnicodeTables) (m : codepoint) (s : str) : bool :=
  match s with
  | [] => false
  | c :: r => ((c =? m)%N && starts_with_word U r) || has_marked U m r
  end.

Definition removals_without_emojis : CleaningOptions :=
  {| remove_urls := true; remove_mentions := true; remove_hashtags := true;
     remove_emojis := false; lowercase := false; normalize_unicode := true |}.

(** The batches [analyze_batch] cuts [texts] into, for the loop indices
    [starts]. *)
Definition batches (texts : list str) (batch_size : Z) (starts : list nat)
  : list (list str) :=
  map (fun i => firstn (Z.to_nat batch_size) (skipn i texts)) starts.

(** [r] is a result that one of the analysis methods of [self] returned. *)
Definition returned (self : SentimentModel.MultilingualSentimentAnalyzer)
    (r : SentimentModel.AnalysisResult) : Prop :=
  (exists t, SentimentModel.analyze self (inl t) = Ok (inl r))
  \/ (exists ts rs, SentimentModel.analyze self (inr ts) = Ok (inr rs) /\ In r rs)
  \/ (exists ts k rs, SentimentModel.analyze_batch self ts k = Ok rs /\ In r rs).

(** How many of the results carry the sentiment [label]. *)
Definition tally (label : string) (rs : list SentimentModel.AnalysisResult) : nat :=
  List.length (filter (fun r => String.eqb label (SentimentModel.sentiment r)) rs).

End SpecTools.

(** *** More concrete inputs *)

Module MoreSamples.
Import Py SentimentModel.

(** The mock of the integration test [test_batch_analysis_pipeline]: whatever
    the batch, the tokenizer returns two rows and the model two rows of
    logits. *)
Definition two_row_tokenizer : Tokenizer :=
  fun _ _ =>
    Ok [("input_ids"%string, [[1; 2; 3]; [4; 5; 6]]%Z);
        ("attention_mask"%string, [[1; 1; 1]; [1; 1; 1]]%Z)].

Definition two_row_model : Model :=
  fun _ => Ok [[1 / 10; 3 / 10; 6 / 10]; [7 / 10; 2 / 10; 1 / 10]]%R.

Definition two_row_analyzer : MultilingualSentimentAnalyzer :=
  {| model_name := Samples.default_model_name;
     tokenizer := Some two_row_tokenizer;
     model := Some two_row_model;
     labels := default_labels |}.

(** A hub whose model download fails after the tokenizer was fetched. *)
Definition failing_model_hub : Hub :=
  {| tokenizer_from_pretrained := fun _ => Ok Samples.mock_tokenizer;
     model_from_pretrained := fun _ => Raise (ExternalError "OSError") |}.

Definition sugoi : str := [0x3059; 0x3054; 0x30FC; 0x30FC; 0x30FC; 0x3044]%N.

Definition words : list str := [lit "check"; lit "out"; lit "!!!"].

Definition tagged : str := lit "#a ##b @c #d_e!".

(** A hashtag whose word is the scheme of a URL. *)
Definition hashtag_url : str := lit "#http://x.com".

Definition kore_ok : str := [0x3053; 0x308C; 0x20; 0x6F; 0x6B]%N.

Definition whitespace_segmenter : LanguageProcessors.Segmenter := split.

Definition file_lines : list str :=
  [lit "I love this!" ++ [0x0A%N]; [0x0A%N]; lit "  " ++ [0x0A%N];
   lit "  It's okay.  " ++ [0x0A%N]].

End MoreSamples.

(** * Proofs *)

(** ** Python strings *)

Module PyFacts.
Import Py Spec.

Lemma spaceless_app (a b : str) : spaceless a -> spaceless b -> spaceless (a ++ b).
Proof. unfold spaceless. rewrite forallb_app. intros -> ->. reflexivity. Qed.

Lemma spaceless_rev (a : str) : spaceless a -> spaceless (rev a).
Proof.
  unfold spaceless. rewrite !forallb_forall. intros H c Hc.
  apply H. now apply in_rev.
Qed.

(** Every word produced by [split] is non-empty and free of whitespace. *)
Lemma split_from_words (s cur : str) :
  spaceless cur ->
  Forall (fun w => w <> [] /\ spaceless w) (split_from cur s).
Proof.
  revert cur. induction s as [|c r IH]; intros cur Hcur; simpl.
  - destruct cur as [|d cur']; constructor; [|constructor].
    split.
    + intros E. apply (f_equal (@List.length _)) in E.
      rewrite length_rev in E. discriminate.
    + now apply spaceless_rev.
  - destruct (is_space c) eqn:Hc.
    + destruct cur as [|d cur'].
      * apply IH. reflexivity.
      * constructor; [|apply IH; reflexivity].
        split.
        -- intros E. apply (f_equal (@List.length _)) in E.
           rewrite length_rev in E. discriminate.
        -- now apply spaceless_rev.
    + apply IH. unfold spaceless in *. simpl. now rewrite Hc.
Qed.

Lemma starts_with_space_app (w s : str) :
  w <> [] -> spaceless w -> starts_with_space (w ++ s) = false.
Proof.
  destruct w as [|c w]; [congruence|]. unfold spaceless. simpl.
  intros _ H. apply andb_prop in H. destruct H as [H _].
  now apply negb_true_iff in H.
Qed.

Lemma ends_with_space_app (a b : str) :
  b <> [] -> ends_with_space (a ++ b) = ends_with_space b.
Proof.
  intros Hb. unfold ends_with_space. rewrite rev_app_distr.
  destruct (rev b) as [|c rb] eqn:E; [|reflexivity].
  apply (f_equal (@rev _)) in E. rewrite rev_involutive in E. now subst.
Qed.

Lemma ends_with_space_word (w : str) :
  spaceless w -> ends_with_space w = false.
Proof.
  intros H. apply spaceless_rev in H. unfold ends_with_space.
  destruct (rev w) as [|c rw]; [reflexivity|].
  unfold spaceless in H. simpl in *. apply andb_prop in H.
  destruct H as [H _]. now apply negb_true_iff in H.
Qed.

Lemma has_space_run_word (w s : str) :
  spaceless w -> has_space_run (w ++ s) = has_space_run s.
Proof.
  unfold spaceless. induction w as [|c w IH]; simpl; [reflexivity|].
  intros H. apply andb_prop in H. destruct H as [Hc Hw].
  apply negb_true_iff in Hc. rewrite Hc. simpl. now apply IH.
Qed.

(** The three whitespace facts about [' '.join(words)]. *)
Lemma join_shape (sep : str) (words : list str) :
  List.length sep = 1 ->
  Forall (fun w => w <> [] /\ spaceless w) words ->
  starts_with_space (join sep words) = false
  /\ ends_with_space (join sep words) = false
  /\ has_space_run (join sep words) = false.
Proof.
  intros Hsep. destruct sep as [|sp [|? ?]]; try discriminate. clear Hsep.
  induction 1 as [|w rest [Hne Hw] Hrest IH]; simpl; [easy|].
  destruct rest as [|w' rest'].
  - repeat split.
    + rewrite <- (app_nil_r w). now apply starts_with_space_app.
    + now apply ends_with_space_word.
    + rewrite <- (app_nil_r w). now rewrite has_space_run_word.
  - destruct IH as (IHs & IHe & IHr).
    set (tail := join [sp] (w' :: rest')) in *.
    assert (Htail : tail <> []).
    { inversion Hrest as [|? ? [Hne' _] _]; subst. unfold tail. simpl.
      destruct rest'; destruct w'; simpl; congruence. }
    repeat split.
    + now apply starts_with_space_app.
    + rewrite ends_with_space_app by (simpl; congruence).
      change (sp :: tail) with ([sp] ++ tail).
      rewrite ends_with_space_app by assumption. exact IHe.
    + rewrite has_space_run_word by assumption. simpl.
      rewrite IHs, IHr. now rewrite andb_false_r.
Qed.

Lemma lstrip_id (s : str) : starts_with_space s = false -> lstrip s = s.
Proof. destruct s as [|c r]; simpl; [easy|]. now intros ->. Qed.

Lemma strip_id (s : str) :
  starts_with_space s = false -> ends_with_space s = false -> strip s = s.
Proof.
  intros Hs He. unfold strip, rstrip. rewrite (lstrip_id _ Hs).
  rewrite lstrip_id by exact He. apply rev_involutive.
Qed.

Lemma lstrip_length (s : str) : List.length (lstrip s) <= List.length s.
Proof. induction s as [|c r IH]; simpl; [lia|]. destruct (is_space c); simpl; lia. Qed.

Lemma strip_length (s : str) : List.length (strip s) <= List.length s.
Proof.
  unfold strip, rstrip. rewrite length_rev.
  etransitivity; [apply lstrip_length|]. rewrite length_rev. apply lstrip_length.
Qed.

Lemma join_split_length (sp : codepoint) (s cur : str) :
  List.length (join [sp] (split_from cur s)) <= List.length cur + List.length s.
Proof.
  revert cur. induction s as [|c r IH]; intros cur.
  - simpl. destruct cur; simpl; [lia|]. rewrite length_app, length_rev. simpl. lia.
  - cbn [split_from]. destruct (is_space c).
    + destruct cur as [|d cur'].
      * specialize (IH []). simpl in *. lia.
      * cbn [join]. specialize (IH []).
        destruct (split_from [] r) as [|w ws].
        -- rewrite length_rev. simpl. lia.
        -- rewrite !length_app, length_rev. simpl in *. lia.
    + specialize (IH (c :: cur)). simpl in *. lia.
Qed.

(** A substitution whose replacement is never longer than the match never
    lengthens the text. *)
Lemma sub_from_length (match_at : str -> option nat) (repl : str -> str) :
  (forall m, List.length (repl m) <= List.length m) ->
  forall s skip, List.length (sub_from match_at repl skip s) <= List.length s - skip.
Proof.
  intros Hrepl. induction s as [|c r IH]; intros skip; simpl; [lia|].
  destruct skip as [|k].
  - destruct (match_at (c :: r)) as [[|n]|].
    + specialize (IH 0). simpl. lia.
    + rewrite length_app. specialize (IH n).
      pose proof (Hrepl (firstn (S n) (c :: r))) as Hm.
      rewrite length_firstn in Hm. simpl in Hm. lia.
    + specialize (IH 0). simpl. lia.
  - apply IH.
Qed.

Lemma sub_length (match_at : str -> option nat) (repl : str -> str) (s : str) :
  (forall m, List.length (repl m) <= List.length m) ->
  List.length (sub match_at repl s) <= List.length s.
Proof. intros H. unfold sub. pose proof (@sub_from_length match_at repl H s 0). lia. Qed.

(** Skipping over a matched prefix. *)
Lemma sub_from_skip (match_at : str -> option nat) (repl : str -> str) (w s : str) :
  sub_from match_at repl (List.length w) (w ++ s) = sub_from match_at repl 0 s.
Proof. induction w as [|c w IH]; simpl; [now destruct s|exact IH]. Qed.

End PyFacts.

(** ** The text cleaner *)

Module CleanerFacts.
Import Py TextProcessor Spec PyFacts.

Lemma delete_length (m : str) : List.length (delete m) <= List.length m.
Proof. simpl. lia. Qed.

Lemma group1_length (m : str) : List.length (group1 m) <= List.length m.
Proof. destruct m; simpl; lia. Qed.

Lemma hashtag_step_length (U : UnicodeTables) (b : bool) (s : str) :
  List.length (hashtag_step U b s) <= List.length s.
Proof.
  destruct b; simpl; apply sub_length; auto using delete_length, group1_length.
Qed.

(** The whitespace step never lengthens its input. *)
Lemma whitespace_step_length (s : str) :
  List.length (strip (join (lit " ") (split s))) <= List.length s.
Proof.
  etransitivity; [apply strip_length|].
  change (lit " ") with [0x20%N]. unfold split.
  exact (join_split_length 0x20%N s []).
Qed.

(** The length of a cleaned text is bounded by the length of the input as
    soon as the two table-driven steps, where enabled, do not lengthen the
    text they are applied to. *)
Lemma clean_text_length_tables (U : UnicodeTables) (o : CleaningOptions) (t : str) :
  (normalize_unicode o = true -> List.length (nfkc U t) <= List.length t) ->
  (lowercase o = true -> forall s, List.length (lower U s) <= List.length s) ->
  List.length (clean_text U o t) <= List.length t.
Proof.
  intros Hn Hl. destruct t as [|c r]; [simpl; lia|].
  unfold clean_text. set (t := c :: r) in *.
  assert (Hb : List.length (before_hashtags U o t) <= List.length t).
  { unfold before_hashtags.
    set (t1 := if normalize_unicode o then nfkc U t else t).
    assert (H1 : List.length t1 <= List.length t).
    { unfold t1. destruct (normalize_unicode o); [now apply Hn|lia]. }
    set (t2 := if remove_urls o then sub (url_pattern) delete t1 else t1).
    assert (H2 : List.length t2 <= List.length t1).
    { unfold t2. destruct (remove_urls o); [|lia].
      apply sub_length, delete_length. }
    destruct (remove_mentions o); [|lia].
    etransitivity; [apply sub_length, delete_length|lia]. }
  pose proof (hashtag_step_length U (remove_hashtags o) (before_hashtags U o t)) as Hh.
  set (t3 := hashtag_step U (remove_hashtags o) (before_hashtags U o t)) in *.
  unfold after_hashtags.
  set (t4 := if remove_emojis o then sub emoji_pattern delete t3 else t3).
  assert (H4 : List.length t4 <= List.length t3).
  { unfold t4. destruct (remove_emojis o); [|lia].
    apply sub_length, delete_length. }
  set (t5 := if lowercase o then lower U t4 else t4).
  assert (H5 : List.length t5 <= List.length t4).
  { unfold t5. destruct (lowercase o); [now apply Hl|lia]. }
  pose proof (whitespace_step_length t5). lia.
Qed.

Lemma run_length_word (U : UnicodeTables) (w s : str) :
  forallb (is_word U) w = true -> starts_with_word U s = false ->
  run_length (is_word U) (w ++ s) = List.length w.
Proof.
  induction w as [|c w IH]; simpl.
  - intros _. destruct s as [|d s]; simpl; [reflexivity|]. now intros ->.
  - intros H Hs. apply andb_prop in H. destruct H as [-> Hw]. f_equal. now apply IH.
Qed.

Lemma run_length_zero (U : UnicodeTables) (s : str) :
  starts_with_word U s = false -> run_length (is_word U) s = 0.
Proof. intros H. now apply (run_length_word U [] s). Qed.

(** On a tokenized text the two substitutions of the hashtag step are the
    deletion of the tokens and the deletion of their [#]. *)
Lemma hashtag_sub_tokenized (U : UnicodeTables) (u : str) (segs : list segment) :
  tokenized U u segs ->
  sub (hashtag_pattern U) delete u = without_hashtags segs
  /\ sub (hashtag_pattern U) group1 u = with_bare_words segs
  /\ rendered segs = u.
Proof.
  unfold sub, hashtag_pattern.
  induction 1 as [|c s segs Hc _ IH|w s segs Hne Hw Hs _ IH].
  - easy.
  - destruct IH as (IH1 & IH2 & IH3).
    assert (Hm : match_marked U hash_sign (c :: s) = None).
    { unfold match_marked. destruct (c =? hash_sign)%N; [|reflexivity].
      simpl in Hc. now rewrite run_length_zero. }
    cbn [sub_from]. rewrite Hm. simpl. now rewrite IH1, IH2, IH3.
  - destruct IH as (IH1 & IH2 & IH3).
    assert (Hm : match_marked U hash_sign (hash_sign :: w ++ s)
                 = Some (S (List.length w))).
    { unfold match_marked. rewrite N.eqb_refl, run_length_word by assumption.
      destruct w; [congruence|reflexivity]. }
    cbn [sub_from]. rewrite Hm.
    assert (Hf : firstn (S (List.length w)) (hash_sign :: w ++ s) = hash_sign :: w).
    { simpl. f_equal. rewrite firstn_app, firstn_all, Nat.sub_diag. simpl.
      apply app_nil_r. }
    rewrite Hf, !sub_from_skip. simpl. now rewrite IH1, IH2, IH3.
Qed.

Lemma word_prefix (U : UnicodeTables) (s : str) :
  exists w s', s = w ++ s' /\ forallb (is_word U) w = true
               /\ starts_with_word U s' = false
               /\ (starts_with_word U s = true -> w <> []).
Proof.
  induction s as [|c r (w & s' & E & Hw & Hs & _)].
  - exists [], []. repeat split; simpl; congruence.
  - destruct (is_word U c) eqn:Hc.
    + exists (c :: w), s'. subst r. repeat split; simpl; try congruence.
      now rewrite Hc.
    + exists [], (c :: r). repeat split; simpl; congruence.
Qed.

(** Every text has a reading as segments. *)
Lemma tokenized_exists (U : UnicodeTables) (u : str) : exists segs, tokenized U u segs.
Proof.
  remember (List.length u) as n eqn:Hn. revert u Hn.
  induction n as [n IH] using lt_wf_ind. intros u Hn.
  destruct u as [|c s]; [exists []; constructor|].
  destruct ((c =? hash_sign)%N && starts_with_word U s) eqn:Hc.
  - apply andb_prop in Hc. destruct Hc as [Hc Hs].
    apply N.eqb_eq in Hc. subst c.
    destruct (word_prefix U s) as (w & s' & E & Hw & Hs' & Hne).
    destruct (IH (List.length s')) with (u := s') as [segs Hsegs];
      [subst; simpl; rewrite length_app; lia|reflexivity|].
    exists (Hashtag w :: segs). subst s. constructor; auto.
  - destruct (IH (List.length s)) with (u := s) as [segs Hsegs];
      [subst; simpl; lia|reflexivity|].
    exists (Plain c :: segs). now constructor.
Qed.

Lemma app_same_length (w w' s s' : str) :
  List.length w = List.length w' -> w ++ s = w' ++ s' -> w = w' /\ s = s'.
Proof.
  revert w'. induction w as [|a w IH]; intros [|b w'] Hl E; try discriminate.
  - easy.
  - injection Hl as Hl. injection E as -> E.
    destruct (IH w' Hl E) as [-> ->]. easy.
Qed.

Lemma word_split_unique (U : UnicodeTables) (w w' s s' : str) :
  forallb (is_word U) w = true -> starts_with_word U s = false ->
  forallb (is_word U) w' = true -> starts_with_word U s' = false ->
  w ++ s = w' ++ s' -> w = w' /\ s = s'.
Proof.
  intros Hw Hs Hw' Hs' E. apply app_same_length; [|exact E].
  rewrite <- (run_length_word U w s), <- (run_length_word U w' s') by assumption.
  now rewrite E.
Qed.

(** The reading is unique. *)
Lemma tokenized_unique (U : UnicodeTables) (u : str) (segs segs' : list segment) :
  tokenized U u segs -> tokenized U u segs' -> segs' = segs.
Proof.
  intros H. revert segs'.
  induction H as [|c s segs Hc _ IH|w s segs Hne Hw Hs _ IH]; intros segs' H'.
  - now inversion H'.
  - inversion H' as [|c' s' g' Hc' Ht'|w' s' g' Hne' Hw' Hs' Ht' E]; subst.
    + f_equal. now apply IH.
    + exfalso. rewrite N.eqb_refl in Hc. simpl in Hc.
      destruct w' as [|d w']; [congruence|]. simpl in *.
      apply andb_prop in Hw'. destruct Hw' as [Hd _]. congruence.
  - inversion H' as [|c' s' g' Hc' Ht'|w' s' g' Hne' Hw' Hs' Ht' E]; subst.
    + exfalso. rewrite N.eqb_refl in Hc'. simpl in Hc'.
      destruct w as [|d w]; [congruence|]. simpl in *.
      apply andb_prop in Hw. destruct Hw as [Hd _]. congruence.
    + destruct (word_split_unique U w' w s' s) as [-> ->]; auto.
      f_equal. now apply IH.
Qed.

End CleanerFacts.

Import Py TextProcessor Spec.

Example clean_text_scenario :
  clean_text excerpt_tables Samples.all_on Samples.dirty = lit "check out !!!".
Proof. reflexivity. Qed.

Example clean_text_scenario_defaults :
  clean_text excerpt_tables default_options Samples.dirty
  = lit "Check out test " ++ [0x1F60A%N] ++ lit "!!!".
Proof. reflexivity. Qed.

(** C4, as stated, fails: with [normalize_unicode] on (the default) the
    one-character text U+2026 is cleaned to the three characters [...], and
    with [lowercase] on the one-character text U+0130 is cleaned to the two
    characters [i], U+0307. *)
Lemma clean_text_length_counterexample :
  ~ (List.length (clean_text excerpt_tables default_options Samples.ellipsis)
     <= List.length Samples.ellipsis)
  /\ ~ (List.length (clean_text excerpt_tables Samples.lowercase_only
                       Samples.dotted_capital_i)
        <= List.length Samples.dotted_capital_i).
Proof. split; vm_compute; lia. Qed.

(** C4, amended: with [lowercase] and [normalize_unicode] both off, for every
    input string and every combination of the four removal flags, the output
    of [clean_text] is no longer than its input. *)
Theorem clean_text_never_longer (U : UnicodeTables) (o : CleaningOptions) (t : str) :
  normalize_unicode o = false -> lowercase o = false ->
  List.length (clean_text U o t) <= List.length t.
Proof.
  intros Hn Hl. apply CleanerFacts.clean_text_length_tables; congruence.
Qed.

Lemma clean_text_never_longer_witness :
  normalize_unicode Samples.removals_only = false
  /\ lowercase Samples.removals_only = false
  /\ List.length (clean_text excerpt_tables Samples.removals_only Samples.dirty)
     <= List.length Samples.dirty.
Proof.
  split; [reflexivity|]. split; [reflexivity|].
  apply (clean_text_never_longer excerpt_tables Samples.removals_only Samples.dirty);
    reflexivity.
Defined.

(** C7: for every input string and every combination of cleaning options, the
    output of [clean_text] has no leading whitespace, no trailing whitespace
    and no two adjacent whitespace characters; and [clean_text] of the empty
    string is the empty string. *)
Theorem clean_text_whitespace (U : UnicodeTables) (o : CleaningOptions) (t : str) :
  starts_with_space (clean_text U o t) = false
  /\ ends_with_space (clean_text U o t) = false
  /\ has_space_run (clean_text U o t) = false
  /\ clean_text U o [] = [].
Proof.
  destruct t as [|c r]; [easy|].
  unfold clean_text, after_hashtags.
  match goal with |- context [split ?x] => set (u := x) end.
  destruct (PyFacts.join_shape (lit " ") (words := split u)) as (Hs & He & Hr).
  - reflexivity.
  - apply PyFacts.split_from_words. reflexivity.
  - rewrite PyFacts.strip_id by assumption. easy.
Qed.

(** C6, as stated, fails.  The input [#http://x.com] reads as the token
    [#http] followed by the plain characters [://x.com].  With the default
    options (hashtag removal off) [clean_text] returns [#]: the [#] of the
    token is kept and its word is gone, where the claim keeps the word and
    deletes the [#] (giving [http://x.com]).  With hashtag removal on
    [clean_text] again returns [#]: the token is not deleted entirely, where
    the claim leaves [://x.com].  The URL step runs first and takes
    [http://x.com] away, so no token reaches the hashtag step. *)
Lemma clean_text_hashtags_counterexample :
  tokenized excerpt_tables MoreSamples.hashtag_url
    (Hashtag (lit "http") :: map Plain (lit "://x.com"))
  /\ with_bare_words (Hashtag (lit "http") :: map Plain (lit "://x.com"))
     = lit "http://x.com"
  /\ without_hashtags (Hashtag (lit "http") :: map Plain (lit "://x.com"))
     = lit "://x.com"
  /\ remove_hashtags default_options = false
  /\ clean_text excerpt_tables default_options MoreSamples.hashtag_url = lit "#"
  /\ remove_hashtags SpecTools.removals_without_emojis = true
  /\ clean_text excerpt_tables SpecTools.removals_without_emojis
       MoreSamples.hashtag_url = lit "#".
Proof.
  split; [|repeat split].
  change MoreSamples.hashtag_url with (hash_sign :: lit "http" ++ lit "://x.com").
  apply tokenized_hashtag; [discriminate|reflexivity|reflexivity|].
  repeat (apply tokenized_plain; [reflexivity|]).
  apply tokenized_nil.
Qed.

(** C6, amended: the claim holds of the text [u] that reaches the hashtag
    step, which is the input after the enabled ones of NFKC normalisation,
    URL removal and mention removal (the input itself when the three are
    off).  For every non-empty input and all options, [u] has exactly one
    reading as plain characters and [#word] tokens; with hashtag removal
    enabled the step deletes each token of [u] entirely, with hashtag removal
    disabled it deletes only the [#] of each token of [u] and keeps the word;
    and the output of [clean_text] is that result after the enabled ones of
    emoji removal and lowercasing, split at whitespace and joined with single
    spaces. *)
Theorem hashtag_step_on_reaching_text (U : UnicodeTables) (o : CleaningOptions)
    (t : str) :
  t <> [] ->
  exists segs,
    tokenized U (before_hashtags U o t) segs
    /\ (forall segs', tokenized U (before_hashtags U o t) segs' -> segs' = segs)
    /\ rendered segs = before_hashtags U o t
    /\ (normalize_unicode o = false -> remove_urls o = false ->
        remove_mentions o = false -> before_hashtags U o t = t)
    /\ hashtag_step U (remove_hashtags o) (before_hashtags U o t)
       = (if remove_hashtags o then without_hashtags segs
          else with_bare_words segs)
    /\ clean_text U o t
       = join (lit " ")
           (split
              (let text := if remove_hashtags o then without_hashtags segs
                           else with_bare_words segs in
               let text := if remove_emojis o
                           then sub emoji_pattern delete text else text in
               if lowercase o then lower U text else text)).
Proof.
  intros Ht.
  destruct (CleanerFacts.tokenized_exists U (before_hashtags U o t)) as [segs Hsegs].
  exists segs.
  destruct (CleanerFacts.hashtag_sub_tokenized Hsegs) as (Hdel & Hkeep & Hren).
  assert (Hstep : hashtag_step U (remove_hashtags o) (before_hashtags U o t)
                  = (if remove_hashtags o then without_hashtags segs
                     else with_bare_words segs)).
  { unfold hashtag_step. destruct (remove_hashtags o); assumption. }
  split; [exact Hsegs|].
  split; [intros segs' H'; eapply CleanerFacts.tokenized_unique; eassumption|].
  split; [exact Hren|].
  split; [|split; [exact Hstep|]].
  - intros Hn Hu Hm. unfold before_hashtags. now rewrite Hn, Hu, Hm.
  - destruct t as [|c r]; [congruence|].
    unfold clean_text. rewrite Hstep. unfold after_hashtags. cbv zeta.
    match goal with |- context [strip (join (lit " ") (split ?x))] => set (u := x) end.
    destruct (PyFacts.join_shape (lit " ") (words := split u)) as (Hs & He & _).
    + reflexivity.
    + apply PyFacts.split_from_words. reflexivity.
    + now rewrite PyFacts.strip_id by assumption.
Qed.

Lemma hashtag_step_on_reaching_text_witness :
  Samples.dirty <> []
  /\ exists segs,
      tokenized excerpt_tables
        (before_hashtags excerpt_tables default_options Samples.dirty) segs
      /\ clean_text excerpt_tables default_options Samples.dirty
         = join (lit " ") (split (with_bare_words segs)).
Proof.
  assert (Hne : Samples.dirty <> []) by discriminate.
  split; [exact Hne|].
  destruct (hashtag_step_on_reaching_text excerpt_tables default_options Hne)
    as (segs & Htok & _ & _ & _ & _ & Heq).
  exists segs. split; [exact Htok|exact Heq].
Defined.

(** ** The language heuristic *)

Module HeuristicFacts.

Ltac range_cases :=
  unfold is_japanese, is_chinese, is_korean, is_latin, in_range in *;
  repeat match goal with
         | H : context [(?a <=? ?b)%N] |- _ => destruct (N.leb_spec a b)
         | |- context [(?a <=? ?b)%N] => destruct (N.leb_spec a b)
         end;
  simpl in *; try reflexivity; try discriminate; try lia.

Lemma chinese_is_japanese (c : codepoint) : is_chinese c = true -> is_japanese c = true.
Proof. intros H. range_cases. Qed.

Lemma latin_only (c : codepoint) :
  is_latin c = true ->
  is_japanese c = false /\ is_chinese c = false /\ is_korean c = false.
Proof. intros H. repeat split; range_cases. Qed.

Lemma korean_only (c : codepoint) :
  is_korean c = true ->
  is_japanese c = false /\ is_chinese c = false /\ is_latin c = false.
Proof. intros H. repeat split; range_cases. Qed.

Lemma count_le (p q : codepoint -> bool) (s : str) :
  (forall c, p c = true -> q c = true) -> count p s <= count q s.
Proof.
  intros Hpq. unfold count. induction s as [|c r IH]; simpl; [lia|].
  destruct (p c) eqn:Hp.
  - rewrite (Hpq c Hp). simpl. lia.
  - destruct (q c); simpl; lia.
Qed.

Lemma count_all (p : codepoint -> bool) (s : str) :
  forallb p s = true -> count p s = List.length s.
Proof.
  unfold count. induction s as [|c r IH]; simpl; [reflexivity|].
  intros H. apply andb_prop in H. destruct H as [-> Hr]. simpl. now rewrite IH.
Qed.

Lemma count_none (p q : codepoint -> bool) (s : str) :
  (forall c, p c = true -> q c = false) ->
  forallb p s = true -> count q s = 0.
Proof.
  intros Hpq. unfold count. induction s as [|c r IH]; simpl; [reflexivity|].
  intros H. apply andb_prop in H. destruct H as [Hc Hr].
  rewrite (Hpq c Hc). now apply IH.
Qed.

(** The comparison [chars > total * (n/d)] on integers. *)
Lemma Qgtb_scaled (a t : Z) (n : Z) (d : positive) :
  Qgtb (inject_Z a) (inject_Z t * (n # d)) = (t * n <? a * Z.pos d)%Z.
Proof.
  unfold Qgtb, Qle_bool. simpl. rewrite Z.ltb_antisym. f_equal. f_equal; lia.
Qed.

Lemma Qltb_scaled (a t : Z) (n : Z) (d : positive) :
  Qltb (inject_Z a) (inject_Z t * (n # d)) = (a * Z.pos d <? t * n)%Z.
Proof.
  unfold Qltb, Qle_bool. simpl. rewrite Z.ltb_antisym. f_equal. f_equal; lia.
Qed.

End HeuristicFacts.

Example heuristic_hello : _simple_language_detect Samples.hello = ("en"%string, (5 # 5)%Q).
Proof. reflexivity. Qed.

(** C8: the heuristic returns ["en"] for every non-empty text made only of
    characters of its Latin range [[a-zA-Z]], ["ko"] for every non-empty text
    made only of characters of its Hangul range [[U+AC00-U+D7AF]], and
    [("unknown", 0.0)] whenever the four counts are all zero, the empty text
    included. *)
Theorem heuristic_latin_hangul_unknown :
  (forall text, text <> [] -> forallb is_latin text = true ->
     fst (_simple_language_detect text) = "en"%string)
  /\ (forall text, text <> [] -> forallb is_korean text = true ->
        fst (_simple_language_detect text) = "ko"%string)
  /\ (forall text,
        count is_japanese text = 0 -> count is_chinese text = 0 ->
        count is_korean text = 0 -> count is_latin text = 0 ->
        _simple_language_detect text = ("unknown"%string, 0%Q))
  /\ _simple_language_detect [] = ("unknown"%string, 0%Q).
Proof.
  repeat split.
  - intros text Hne Hall. unfold _simple_language_detect.
    rewrite (HeuristicFacts.count_none is_latin is_japanese),
            (HeuristicFacts.count_none is_latin is_chinese),
            (HeuristicFacts.count_none is_latin is_korean),
            (HeuristicFacts.count_all is_latin)
      by (try assumption; intros c Hc; now apply HeuristicFacts.latin_only in Hc).
    assert (Hpos : (0 < Z.of_nat (List.length text))%Z)
      by (destruct text; [congruence|simpl; lia]).
    set (n := Z.of_nat (List.length text)) in *. cbn [Z.of_nat Z.add].
    destruct (n =? 0)%Z eqn:E; [lia|].
    rewrite !HeuristicFacts.Qgtb_scaled.
    destruct (n * 3 <? 0 * 10)%Z eqn:E1; [lia|]. reflexivity.
  - intros text Hne Hall. unfold _simple_language_detect.
    rewrite (HeuristicFacts.count_none is_korean is_japanese),
            (HeuristicFacts.count_none is_korean is_chinese),
            (HeuristicFacts.count_none is_korean is_latin),
            (HeuristicFacts.count_all is_korean)
      by (try assumption; intros c Hc; now apply HeuristicFacts.korean_only in Hc).
    assert (Hpos : (0 < Z.of_nat (List.length text))%Z)
      by (destruct text; [congruence|simpl; lia]).
    set (n := Z.of_nat (List.length text)) in *. cbn [Z.of_nat Z.add].
    replace (n + 0)%Z with n by lia.
    destruct (n =? 0)%Z eqn:E; [lia|].
    rewrite !HeuristicFacts.Qgtb_scaled.
    destruct (n * 3 <? 0 * 10)%Z eqn:E1; [lia|].
    destruct (n * 3 <? n * 10)%Z eqn:E2; [reflexivity|lia].
  - intros text Hj Hc Hk Hl. unfold _simple_language_detect.
    now rewrite Hj, Hc, Hk, Hl.
Qed.

Lemma heuristic_latin_hangul_unknown_witness :
  fst (_simple_language_detect Samples.hello) = "en"%string
  /\ fst (_simple_language_detect Samples.hangul) = "ko"%string
  /\ _simple_language_detect Samples.digits = ("unknown"%string, 0%Q).
Proof.
  destruct heuristic_latin_hangul_unknown as (Hen & Hko & Hun & _).
  split; [|split].
  - apply Hen; [discriminate|reflexivity].
  - apply Hko; [discriminate|reflexivity].
  - apply Hun; reflexivity.
Defined.

(** C9: every character of the Chinese range is in the Japanese range, so the
    Japanese count is never below the Chinese count; the guard of the ["zh"]
    branch (Chinese count above 30% of the total and Japanese count below 10%
    of it) is never true; the heuristic never answers ["zh"], and its code is
    one of ja, ko, en, unknown. *)
Theorem heuristic_never_zh (text : str) :
  (forall c, is_chinese c = true -> is_japanese c = true)
  /\ count is_chinese text <= count is_japanese text
  /\ (let japanese_chars := Z.of_nat (count is_japanese text) in
      let chinese_chars := Z.of_nat (count is_chinese text) in
      let total := (japanese_chars + chinese_chars
                    + Z.of_nat (count is_korean text)
                    + Z.of_nat (count is_latin text))%Z in
      Qgtb (inject_Z chinese_chars) (inject_Z total * (3 # 10))
      && Qltb (inject_Z japanese_chars) (inject_Z total * (1 # 10)) = false)
  /\ fst (_simple_language_detect text) <> "zh"%string
  /\ In (fst (_simple_language_detect text)) ["ja"; "ko"; "en"; "unknown"]%string.
Proof.
  pose proof (HeuristicFacts.count_le is_chinese is_japanese text
                HeuristicFacts.chinese_is_japanese) as Hle.
  split; [exact HeuristicFacts.chinese_is_japanese|].
  split; [exact Hle|].
  split.
  { cbv zeta. rewrite HeuristicFacts.Qgtb_scaled, HeuristicFacts.Qltb_scaled.
    apply andb_false_iff.
    destruct (Z.ltb_spec
                ((Z.of_nat (count is_japanese text) + Z.of_nat (count is_chinese text)
                  + Z.of_nat (count is_korean text) + Z.of_nat (count is_latin text)) * 3)
                (Z.of_nat (count is_chinese text) * 10)) as [H1|H1]; [|now left].
    right. apply Z.ltb_ge. lia. }
  unfold _simple_language_detect.
  set (j := Z.of_nat (count is_japanese text)).
  set (c := Z.of_nat (count is_chinese text)).
  set (k := Z.of_nat (count is_korean text)).
  set (l := Z.of_nat (count is_latin text)).
  assert (Hcj : (c <= j)%Z) by (unfold c, j; lia).
  destruct (j + c + k + l =? 0)%Z; [simpl; split; [discriminate|tauto]|].
  rewrite !HeuristicFacts.Qgtb_scaled.
  destruct ((j + c + k + l) * 3 <? j * 10)%Z eqn:Ej;
    [simpl; split; [discriminate|tauto]|].
  destruct ((j + c + k + l) * 3 <? k * 10)%Z eqn:Ek;
    [simpl; split; [discriminate|tauto]|].
  destruct ((j + c + k + l) * 3 <? c * 10)%Z eqn:Ec; [lia|].
  simpl. split; [discriminate|tauto].
Qed.

(** C5, as stated, fails: when the detector raises an exception other than
    [ImportError], [detect_language] answers [("unknown", 0.0)], not the
    heuristic's answer. *)
Lemma detect_language_raise_counterexample :
  detect_language Samples.raising_detector Samples.url_only
  <> _simple_language_detect Samples.url_only.
Proof. vm_compute. discriminate. Qed.

(** C5, amended: when the external detector is unavailable (its import
    fails, at the [import] statement or during the call), [detect_language]
    returns the heuristic's result for every text; when the detector raises
    any other exception, [detect_language] returns [("unknown", 0.0)]. *)
Theorem detect_language_fallback :
  (forall text, detect_language Unavailable text = _simple_language_detect text)
  /\ (forall detect_langs text,
        detect_langs text = inl ImportError ->
        detect_language (Available detect_langs) text
        = _simple_language_detect text)
  /\ (forall detect_langs text,
        detect_langs text = inl OtherException ->
        detect_language (Available detect_langs) text = ("unknown"%string, 0%Q)).
Proof.
  repeat split; intros; simpl; try reflexivity.
  - now rewrite H.
  - now rewrite H.
Qed.

Lemma detect_language_fallback_witness :
  detect_language Unavailable Samples.hello = ("en"%string, (5 # 5)%Q)
  /\ detect_language Samples.late_import_detector Samples.hello
     = _simple_language_detect Samples.hello
  /\ detect_language Samples.raising_detector Samples.hello
     = ("unknown"%string, 0%Q).
Proof.
  destruct detect_language_fallback as (Hu & Hi & Ho).
  split; [|split].
  - rewrite Hu. reflexivity.
  - apply Hi. reflexivity.
  - apply Ho. reflexivity.
Defined.

(** ** Loops in the error monad *)

Module LoopFacts.
Local Open Scope result_scope.

Section ForEach.
Context {A S : Type}.

Lemma for_each_app (body : S -> A -> result S) (l1 l2 : list A) (s : S) :
  for_each body (l1 ++ l2) s = (s' <- for_each body l1 s;; for_each body l2 s').
Proof.
  revert s. induction l1 as [|a r IH]; intros s; simpl; [reflexivity|].
  destruct (body s a); simpl; [apply IH|reflexivity].
Qed.

(** Nested loops over chunks are one loop over their concatenation. *)
Lemma for_each_concat (body : S -> A -> result S) (chunks : list (list A)) (s : S) :
  for_each (fun s chunk => for_each body chunk s) chunks s
  = for_each body (List.concat chunks) s.
Proof.
  revert s. induction chunks as [|c r IH]; intros s; simpl; [reflexivity|].
  rewrite for_each_app. destruct (for_each body c s); simpl; [apply IH|reflexivity].
Qed.

Lemma for_each_ext (body body' : S -> A -> result S) (l : list A) (s : S) :
  (forall s a, In a l -> body s a = body' s a) ->
  for_each body l s = for_each body' l s.
Proof.
  revert s. induction l as [|a r IH]; intros s H; simpl; [reflexivity|].
  rewrite H by now left. destruct (body' s a); simpl; [|reflexivity].
  apply IH. intros; apply H; now right.
Qed.
End ForEach.

(** Appending one computed element per iteration is a comprehension. *)
Lemma for_each_append {A B : Type} (f : A -> result B) (l : list A) (acc : list B) :
  for_each (fun acc a => b <- f a;; Ok (acc ++ [b])) l acc
  = (bs <- comprehension f l;; Ok (acc ++ bs)).
Proof.
  revert acc. induction l as [|a r IH]; intros acc; simpl.
  - now rewrite app_nil_r.
  - destruct (f a) as [b|e]; simpl; [|reflexivity].
    rewrite IH. destruct (comprehension f r); simpl; [|reflexivity].
    now rewrite <- app_assoc.
Qed.

Lemma comprehension_Forall2 {A B : Type} (f : A -> result B) (l : list A) (bs : list B) :
  comprehension f l = Ok bs <-> Forall2 (fun a b => f a = Ok b) l bs.
Proof.
  revert bs. induction l as [|a r IH]; intros bs; simpl.
  - split.
    + intros [= <-]. constructor.
    + intros H. inversion H. reflexivity.
  - split.
    + destruct (f a) as [b|e] eqn:E; simpl; [|discriminate].
      destruct (comprehension f r) as [bs'|e] eqn:E'; simpl; [|discriminate].
      intros [= <-]. constructor; [exact E|]. now apply IH.
    + intros H. inversion H as [|? b ? bs' Hab Hrest]; subst.
      rewrite Hab. simpl. apply IH in Hrest. now rewrite Hrest.
Qed.

Lemma comprehension_total {A B : Type} (f : A -> result B) (l : list A) :
  (forall a, exists b, f a = Ok b) -> exists bs, comprehension f l = Ok bs.
Proof.
  intros H. induction l as [|a r [bs IH]]; simpl; [now exists []|].
  destruct (H a) as [b ->]. rewrite IH. simpl. now exists (b :: bs).
Qed.

Lemma enumerate_from {A : Type} (l : list A) (a : nat) :
  map snd (combine (seq a (List.length l)) l) = l.
Proof.
  revert a. induction l as [|x r IH]; intros a; simpl; [reflexivity|].
  now rewrite IH.
Qed.

(** [range(0, n, k)] cuts [l] into consecutive slices that cover it. *)
Lemma slices_cover {A : Type} (k : nat) (l : list A) (c a : nat) :
  List.length (skipn (a * k) l) <= c * k ->
  List.concat (map (fun i => firstn k (skipn i l)) (map (fun q => q * k) (seq a c)))
  = skipn (a * k) l.
Proof.
  revert a. induction c as [|c IH]; intros a Hlen; simpl.
  - simpl in Hlen. destruct (skipn (a * k) l); [reflexivity|simpl in Hlen; lia].
  - rewrite IH.
    + replace (S a * k) with (k + a * k) by lia.
      rewrite <- skipn_skipn. apply firstn_skipn.
    + replace (S a * k) with (k + a * k) by lia.
      rewrite <- skipn_skipn, length_skipn. simpl in Hlen. lia.
Qed.

Lemma range0_chunks {A : Type} (l : list A) (step : Z) :
  (1 <= step)%Z ->
  exists starts,
    range0 (List.length l) step = Ok starts
    /\ List.concat (map (fun i => firstn (Z.to_nat step) (skipn i l)) starts) = l.
Proof.
  intros Hk. unfold range0.
  destruct (step =? 0)%Z eqn:E0; [lia|].
  destruct (step <? 0)%Z eqn:E1; [lia|].
  eexists. split; [reflexivity|].
  set (k := Z.to_nat step). assert (Hkpos : 0 < k) by (unfold k; lia).
  rewrite (slices_cover k l ((List.length l + k - 1) / k) 0); [reflexivity|].
  simpl. pose proof (Nat.div_mod_eq (List.length l + k - 1) k) as Hd.
  pose proof (Nat.mod_upper_bound (List.length l + k - 1) k) as Hm. nia.
Qed.

End LoopFacts.

(** ** The inference wrapper *)

Module AnalyzerFacts.
Import SentimentModel.
Local Open Scope result_scope.

(** *** Softmax *)

Lemma sum_exp_nonneg (row : list R) : (0 <= sum_R (map exp row))%R.
Proof.
  induction row as [|x r IH]; simpl; [lra|].
  pose proof (exp_pos x). lra.
Qed.

Lemma sum_exp_pos (row : list R) : row <> [] -> (0 < sum_R (map exp row))%R.
Proof.
  destruct row as [|x r]; [congruence|]. intros _. simpl.
  pose proof (exp_pos x). pose proof (sum_exp_nonneg r). lra.
Qed.

Lemma sum_R_scaled (z : R) (l : list R) :
  sum_R (map (fun y => y / z)%R l) = (sum_R l / z)%R.
Proof.
  induction l as [|y r IH]; simpl.
  - unfold Rdiv. ring.
  - rewrite IH. unfold Rdiv. ring.
Qed.

Lemma softmax_length (row : list R) : List.length (softmax row) = List.length row.
Proof. unfold softmax. apply length_map. Qed.

(** The scores of a non-empty row sum to one. *)
Lemma softmax_sum (row : list R) : row <> [] -> sum_R (softmax row) = 1%R.
Proof.
  intros Hne. unfold softmax.
  rewrite <- (map_map exp (fun y => (y / sum_R (map exp row))%R)).
  rewrite sum_R_scaled. pose proof (sum_exp_pos Hne).
  field. lra.
Qed.

(** *** argmax and max *)

Lemma first_max_step (pre : list R) (bi : nat) (b x : R) :
  first_max pre bi b ->
  first_max (pre ++ [x])
            (if Rlt_dec b x then List.length pre else bi) (Rmax b x).
Proof.
  intros (Hnth & Hall & Hfirst).
  assert (Hbi : bi < List.length pre) by (apply nth_error_Some; congruence).
  destruct (Rlt_dec b x) as [Hlt|Hge].
  - rewrite Rmax_right by lra. repeat split.
    + rewrite nth_error_app2, Nat.sub_diag by lia. reflexivity.
    + intros j y Hj. destruct (Nat.lt_ge_cases j (List.length pre)) as [Hjl|Hjl].
      * rewrite nth_error_app1 in Hj by assumption.
        specialize (Hall j y Hj). lra.
      * rewrite nth_error_app2 in Hj by assumption.
        destruct (j - List.length pre) as [|n]; simpl in Hj.
        -- injection Hj as <-. lra.
        -- now destruct n.
    + intros j y Hjl Hj. rewrite nth_error_app1 in Hj by assumption.
      specialize (Hall j y Hj). lra.
  - rewrite Rmax_left by lra. repeat split.
    + now rewrite nth_error_app1.
    + intros j y Hj. destruct (Nat.lt_ge_cases j (List.length pre)) as [Hjl|Hjl].
      * rewrite nth_error_app1 in Hj by assumption. eauto.
      * rewrite nth_error_app2 in Hj by assumption.
        destruct (j - List.length pre) as [|n]; simpl in Hj.
        -- injection Hj as <-. lra.
        -- now destruct n.
    + intros j y Hjl Hj. rewrite nth_error_app1 in Hj by lia. eauto.
Qed.

Lemma argmax_from_first_max (r pre : list R) (bi : nat) (b : R) :
  first_max pre bi b ->
  first_max (pre ++ r) (argmax_from bi b (List.length pre) r) (fold_left Rmax r b).
Proof.
  revert pre bi b. induction r as [|x r IH]; intros pre bi b H; simpl.
  - now rewrite app_nil_r.
  - pose proof (first_max_step x H) as Hstep.
    replace (pre ++ x :: r) with ((pre ++ [x]) ++ r) by now rewrite <- app_assoc.
    replace (S (List.length pre)) with (List.length (pre ++ [x]))
      by (rewrite length_app; simpl; lia).
    destruct (Rlt_dec b x) as [Hlt|Hge].
    + rewrite (Rmax_right b x) in * by lra. apply IH; exact Hstep.
    + rewrite (Rmax_left b x) in * by lra. apply IH; exact Hstep.
Qed.

(** [np.argmax] and [np.max] agree: the index is the first one that holds the
    maximum. *)
Lemma argmax_max (l : list R) (i : nat) (v : R) :
  np_argmax l = Ok i -> np_max l = Ok v -> first_max l i v.
Proof.
  destruct l as [|x r]; simpl; [discriminate|].
  intros [= <-] [= <-].
  apply (argmax_from_first_max r (pre := [x]) (bi := 0)).
  repeat split.
  - intros [|[|j]] y; simpl; try discriminate. intros [= <-]. lra.
  - intros j y Hj. lia.
Qed.

Lemma argmax_max_total (l : list R) :
  l <> [] -> exists i v, np_argmax l = Ok i /\ np_max l = Ok v.
Proof. destruct l as [|x r]; [congruence|]. intros _. simpl. eauto. Qed.

Lemma combine_fst_snd {A B : Type} (a : list A) (b : list B) :
  List.length a = List.length b ->
  map fst (combine a b) = a /\ map snd (combine a b) = b.
Proof.
  revert b. induction a as [|x a IH]; intros [|y b] H; simpl in *;
    try discriminate; [easy|].
  injection H as H. destruct (IH b H) as [-> ->]. easy.
Qed.

(** *** Result shaping *)

Lemma shape_text (self : MultilingualSentimentAnalyzer) (t : Py.str)
    (row : list R) (r : AnalysisResult) :
  shape self t row = Ok r -> text r = t.
Proof.
  unfold shape. destruct (np_argmax row) as [i|]; simpl; [|discriminate].
  destruct (index (labels self) i); simpl; [|discriminate].
  destruct (np_max row); simpl; [|discriminate].
  now intros [= <-].
Qed.

Lemma shape_well_shaped (self : MultilingualSentimentAnalyzer) (t : Py.str)
    (logits : list R) (r : AnalysisResult) :
  labels self = default_labels -> List.length logits = 3 ->
  shape self t (softmax logits) = Ok r -> well_shaped r.
Proof.
  intros Hl Hlen. unfold shape. rewrite Hl.
  destruct (np_argmax (softmax logits)) as [i|] eqn:Ei; cbn [bind]; [|discriminate].
  unfold index.
  destruct (nth_error default_labels i) as [lbl|] eqn:En; cbn [bind]; [|discriminate].
  destruct (np_max (softmax logits)) as [v|] eqn:Ev; cbn [bind]; [|discriminate].
  intros E.
  assert (Hr : r = {| text := t; sentiment := lbl; confidence := v;
                      scores := combine default_labels (softmax logits) |})
    by congruence.
  subst r. clear E.
  destruct (combine_fst_snd default_labels (softmax logits)) as [Hf Hs].
  { rewrite softmax_length, Hlen. reflexivity. }
  constructor; cbn [scores confidence sentiment].
  - exact Hf.
  - rewrite Hs, softmax_sum by (destruct logits; [discriminate|congruence]).
    rewrite Rminus_diag, Rabs_R0. lra.
  - exists i. rewrite Hs, Hf. split; [now apply argmax_max|exact En].
  - eapply nth_error_In; eassumption.
Qed.

Lemma shape_total (self : MultilingualSentimentAnalyzer) (t : Py.str)
    (logits : list R) :
  labels self = default_labels -> List.length logits = 3 ->
  exists r, shape self t (softmax logits) = Ok r.
Proof.
  intros Hl Hlen. unfold shape. rewrite Hl.
  assert (Hne : softmax logits <> []).
  { intros E. apply (f_equal (@List.length _)) in E.
    rewrite softmax_length, Hlen in E. discriminate. }
  destruct (argmax_max_total Hne) as (i & v & Ei & Ev).
  destruct (argmax_max _ Ei Ev) as (Hnth & _ & _).
  assert (Hi : i < 3).
  { rewrite <- Hlen, <- softmax_length. apply nth_error_Some. congruence. }
  rewrite Ei, Ev. cbn [bind]. unfold index.
  destruct (nth_error default_labels i) as [lbl|] eqn:En; cbn [bind]; [eauto|].
  apply nth_error_None in En. simpl in En. lia.
Qed.

End AnalyzerFacts.

(** *** The two analysis paths *)

Module PathFacts.
Import SentimentModel LoopFacts AnalyzerFacts.
Local Open Scope result_scope.

Lemma for_each_map {A B S : Type} (body : S -> B -> result S) (g : A -> B)
    (l : list A) (s : S) :
  for_each (fun s a => body s (g a)) l s = for_each body (map g l) s.
Proof.
  revert s. induction l as [|a r IH]; intros s; simpl; [reflexivity|].
  destruct (body s (g a)); simpl; [apply IH|reflexivity].
Qed.

Lemma three_way_scores (m : Model) (inputs : Encoding) (logits : list (list R)) :
  three_way m -> m inputs = Ok logits ->
  Forall softmax_of_three (map softmax logits).
Proof.
  intros Hm E. specialize (Hm inputs logits E).
  apply Forall_map. eapply Forall_impl; [|exact Hm].
  intros row Hrow. now exists row.
Qed.

Lemma index_Forall {A : Type} (Q : A -> Prop) (l : list A) (i : nat) (a : A) :
  Forall Q l -> index l i = Ok a -> Q a.
Proof.
  unfold index. intros HQ. destruct (nth_error l i) as [x|] eqn:E; [|discriminate].
  intros [= <-]. rewrite Forall_forall in HQ. apply HQ.
  eapply nth_error_In; eassumption.
Qed.

(** The inner loop of [analyze_batch] appends one result per text of the
    batch, in order, each shaped from a row of the scores. *)
Lemma inner_loop (self : MultilingualSentimentAnalyzer) (scores_np : list (list R))
    (Q : list R -> Prop) (P : AnalysisResult -> Prop) :
  Forall Q scores_np ->
  (forall t row r, Q row -> shape self t row = Ok r -> P r) ->
  forall (jts : list (nat * Py.str)) (results results' : list AnalysisResult),
    for_each
      (fun results jt =>
         row <- index scores_np (fst jt);;
         r <- shape self (snd jt) row;;
         Ok (results ++ [r]))
      jts results = Ok results' ->
    exists new, results' = results ++ new
                /\ map text new = map snd jts /\ Forall P new.
Proof.
  intros HQ HP. induction jts as [|[j t] jts IH]; intros results results'; simpl.
  - intros [= <-]. exists []. now rewrite app_nil_r.
  - destruct (index scores_np j) as [row|] eqn:Er; cbn [bind]; [|discriminate].
    destruct (shape self t row) as [r|] eqn:Es; cbn [bind]; [|discriminate].
    intros H. destruct (IH _ _ H) as (new & -> & Ht & Hp).
    exists (r :: new). rewrite <- app_assoc. repeat split.
    + simpl. now rewrite (shape_text _ _ _ Es), Ht.
    + constructor; [|exact Hp]. eapply HP; [|exact Es].
      eapply index_Forall; eassumption.
Qed.

Lemma analyze_chunk_results (self : MultilingualSentimentAnalyzer)
    (results results' : list AnalysisResult) (batch : list Py.str) :
  analyze_chunk self results batch = Ok results' ->
  exists new, results' = results ++ new /\ map text new = batch
              /\ (model_three_way self -> Forall well_shaped new).
Proof.
  unfold analyze_chunk.
  destruct (tokenizer self) as [tok|]; cbn [callable bind]; [|discriminate].
  destruct (tok (Batch batch) true) as [inputs|]; cbn [bind]; [|discriminate].
  destruct (model self) as [m|] eqn:Em; cbn [callable bind]; [|discriminate].
  destruct (m inputs) as [logits|] eqn:El; cbn [bind]; [|discriminate].
  intros H.
  assert (Htext : exists new, results' = results ++ new /\ map text new = batch).
  { assert (HQ : Forall (fun _ : list R => True) (map softmax logits))
      by (apply Forall_forall; trivial).
    destruct (@inner_loop self (map softmax logits) (fun _ => True) (fun _ => True)
                HQ (fun _ _ _ _ _ => I) _ _ _ H) as (new & E & Ht & _).
    exists new. split; [exact E|]. rewrite Ht. apply enumerate_from. }
  destruct Htext as (new & E & Ht). exists new. repeat split; try assumption.
  intros [Hl Hm].
  assert (HQ : Forall softmax_of_three (map softmax logits))
    by (eapply three_way_scores; [apply Hm; exact Em|exact El]).
  assert (HP : forall t row r, softmax_of_three row -> shape self t row = Ok r ->
                               well_shaped r).
  { intros t row r (l & -> & Hlen). now apply shape_well_shaped. }
  destruct (@inner_loop self (map softmax logits) softmax_of_three well_shaped
              HQ HP _ _ _ H) as (new' & E' & _ & Hp).
  rewrite E in E'. apply app_inv_head in E'. now subst new'.
Qed.

Lemma analyze_batch_results (self : MultilingualSentimentAnalyzer)
    (starts : list nat) (k : nat) (texts : list Py.str)
    (results results' : list AnalysisResult) :
  for_each
    (fun results i => analyze_chunk self results (firstn k (skipn i texts)))
    starts results = Ok results' ->
  exists new, results' = results ++ new
              /\ map text new
                 = List.concat (map (fun i => firstn k (skipn i texts)) starts)
              /\ (model_three_way self -> Forall well_shaped new).
Proof.
  revert results results'. induction starts as [|i starts IH];
    intros results results'; simpl.
  - intros [= <-]. exists []. rewrite app_nil_r. repeat split. constructor.
  - destruct (analyze_chunk self results (firstn k (skipn i texts)))
      as [results1|] eqn:E1; cbn [bind]; [|discriminate].
    intros H. destruct (analyze_chunk_results _ _ _ E1) as (new1 & -> & Ht1 & Hp1).
    destruct (IH _ _ H) as (new2 & -> & Ht2 & Hp2).
    exists (new1 ++ new2). rewrite <- app_assoc. repeat split.
    + now rewrite map_app, Ht1, Ht2.
    + intros Hm. apply Forall_app. auto.
Qed.

Lemma analyze_single_result (self : MultilingualSentimentAnalyzer) (t : Py.str)
    (r : AnalysisResult) :
  _analyze_single self t = Ok r ->
  text r = t /\ (model_three_way self -> well_shaped r).
Proof.
  unfold _analyze_single.
  destruct (tokenizer self) as [tok|]; cbn [callable bind]; [|discriminate].
  destruct (tok (Single t) false) as [inputs|]; cbn [bind]; [|discriminate].
  destruct (model self) as [m|] eqn:Em; cbn [callable bind]; [|discriminate].
  destruct (m inputs) as [logits|] eqn:El; cbn [bind]; [|discriminate].
  destruct (index (map softmax logits) 0) as [row|] eqn:Er; cbn [bind];
    [|discriminate].
  intros Hs. split; [eapply shape_text; eassumption|].
  intros [Hl Hm].
  assert (Hrow : softmax_of_three row).
  { eapply index_Forall; [|exact Er].
    eapply three_way_scores; [apply Hm; exact Em|exact El]. }
  destruct Hrow as (l & -> & Hlen). eapply shape_well_shaped; eassumption.
Qed.

(** *** A model that is a function of the text *)

Section BlackBox.
Variables (self : MultilingualSentimentAnalyzer) (tok : Tokenizer) (m : Model).
Variable f : Py.str -> list R.
Hypothesis Hloaded : loaded self tok m.
Hypothesis Hbox : black_box tok m f.

Lemma analyze_single_black_box (t : Py.str) :
  _analyze_single self t = analyze_text self f t.
Proof.
  destruct Hloaded as (Ht & Hm & _). destruct Hbox as [Hone _].
  destruct (Hone t) as (e & He & Hme).
  unfold _analyze_single. rewrite Ht, Hm. cbn [callable bind].
  rewrite He. cbn [bind]. rewrite Hme. reflexivity.
Qed.

Lemma inner_loop_black_box (b pre : list Py.str) (results : list AnalysisResult) :
  for_each
    (fun results jt =>
       row <- index (map softmax (map f (pre ++ b))) (fst jt);;
       r <- shape self (snd jt) row;;
       Ok (results ++ [r]))
    (combine (seq (List.length pre) (List.length b)) b) results
  = for_each (fun results t => r <- analyze_text self f t;; Ok (results ++ [r])) b results.
Proof.
  revert pre results. induction b as [|t b IH]; intros pre results; simpl;
    [reflexivity|].
  assert (Hrow : index (map softmax (map f (pre ++ t :: b))) (List.length pre)
                 = Ok (softmax (f t))).
  { unfold index. rewrite map_map, nth_error_map, nth_error_app2 by lia.
    now rewrite Nat.sub_diag. }
  rewrite Hrow. cbn [bind]. unfold analyze_text in *.
  destruct (shape self t (softmax (f t))) as [r|]; cbn [bind]; [|reflexivity].
  specialize (IH (pre ++ [t]) (results ++ [r])).
  rewrite <- app_assoc, length_app, Nat.add_comm in IH. exact IH.
Qed.

Lemma analyze_chunk_black_box (results : list AnalysisResult) (batch : list Py.str) :
  analyze_chunk self results batch
  = for_each (fun results t => r <- analyze_text self f t;; Ok (results ++ [r]))
      batch results.
Proof.
  destruct Hloaded as (Ht & Hm & _). destruct Hbox as [_ Hmany].
  destruct (Hmany batch) as (e & He & Hme).
  unfold analyze_chunk. rewrite Ht, Hm. cbn [callable bind].
  rewrite He. cbn [bind]. rewrite Hme. cbn [bind].
  apply (inner_loop_black_box batch []).
Qed.

Lemma comprehension_black_box (texts : list Py.str) :
  comprehension (_analyze_single self) texts
  = comprehension (analyze_text self f) texts.
Proof.
  induction texts as [|t r IH]; simpl; [reflexivity|].
  now rewrite analyze_single_black_box, IH.
Qed.

(** With a batch size of at least one, the batch path computes what the
    comprehension over the single-text path computes, exceptions included. *)
Lemma analyze_batch_black_box (texts : list Py.str) (k : Z) :
  (1 <= k)%Z ->
  analyze_batch self texts k = comprehension (_analyze_single self) texts.
Proof.
  intros Hk. unfold analyze_batch.
  destruct (range0_chunks texts Hk) as (starts & -> & Hcover). cbn [bind].
  erewrite for_each_ext by (intros; apply analyze_chunk_black_box).
  rewrite (for_each_map
             (fun results chunk =>
                for_each (fun results t => r <- analyze_text self f t;; Ok (results ++ [r]))
                  chunk results)
             (fun i => firstn (Z.to_nat k) (skipn i texts))).
  rewrite for_each_concat, Hcover, for_each_append.
  rewrite <- comprehension_black_box. now destruct (comprehension (_analyze_single self) texts).
Qed.

Lemma analyze_single_total (t : Py.str) :
  (forall t, List.length (f t) = 3) -> exists r, _analyze_single self t = Ok r.
Proof.
  intros H3. rewrite analyze_single_black_box. apply shape_total; [|apply H3].
  now destruct Hloaded as (_ & _ & Hl).
Qed.
End BlackBox.

End PathFacts.

Import SentimentModel.

(** [load_model] takes a fresh analyzer to a loaded one. *)
Lemma load_model_loaded (hub : Hub) (name : string)
    (self : MultilingualSentimentAnalyzer) :
  load_model hub (__init__ name) = (self, Ok tt) ->
  exists tok m, loaded self tok m.
Proof.
  unfold load_model, __init__. simpl.
  destruct (tokenizer_from_pretrained hub name) as [tok|]; [|discriminate].
  destruct (model_from_pretrained hub name) as [m|]; [|discriminate].
  intros [= <-]. exists tok, m. repeat split.
Qed.

Lemma mock_loaded :
  loaded Samples.mock_analyzer Samples.mock_tokenizer Samples.mock_model.
Proof. repeat split. Qed.

Lemma mock_black_box :
  black_box Samples.mock_tokenizer Samples.mock_model (fun _ => Samples.mock_logits).
Proof.
  split; intros x; eexists; (split; [reflexivity|]); simpl; [reflexivity|].
  now rewrite map_map.
Qed.

Lemma mock_three_way : model_three_way Samples.mock_analyzer.
Proof.
  split; [reflexivity|]. intros m [= <-] inputs rows.
  destruct inputs as [|[n ids] [|]]; simpl; try discriminate.
  intros [= <-]. apply Forall_map, Forall_forall. reflexivity.
Qed.

Lemma mock_batch_total :
  exists rs, analyze_batch Samples.mock_analyzer Samples.three_texts 2 = Ok rs.
Proof.
  rewrite (PathFacts.analyze_batch_black_box mock_loaded mock_black_box) by lia.
  apply LoopFacts.comprehension_total. intros t.
  apply (PathFacts.analyze_single_total mock_loaded mock_black_box). reflexivity.
Qed.

(** C1: before [load_model], [analyze] raises the "Model not loaded"
    [RuntimeError] for every input, but [analyze_batch] has no such guard: on
    the empty list it returns the empty list, and on a non-empty list it
    raises the [TypeError] of calling the [None] tokenizer. *)
Theorem analyze_batch_before_load (name : string) :
  (forall t,
      analyze (__init__ name) t
      = Raise (RuntimeError "Model not loaded. Call load_model() first."))
  /\ analyze_batch (__init__ name) [] 32 = Ok []
  /\ analyze_batch (__init__ name) [Samples.hello] 32 = Raise TypeError.
Proof. repeat split. Qed.

(** C2: with the model a fixed function from a text to three logits and a
    batch size of at least one, [analyze_batch] returns one result per input
    text, in input order, and each result is exactly the one the single-text
    analysis returns for that text; so the (sentiment, confidence) pairs are
    equal, within every tolerance. *)
Theorem analyze_batch_matches_single (self : MultilingualSentimentAnalyzer)
    (tok : Tokenizer) (m : Model) (f : Py.str -> list R)
    (texts : list Py.str) (k : Z) :
  loaded self tok m -> black_box tok m f ->
  (forall t, List.length (f t) = 3) -> (1 <= k)%Z ->
  exists rs,
    analyze_batch self texts k = Ok rs
    /\ List.length rs = List.length texts
    /\ map text rs = texts
    /\ Forall2 (fun t r => analyze self (inl t) = Ok (inl r)) texts rs
    /\ analyze self (inr texts) = Ok (inr rs).
Proof.
  intros Hloaded Hbox H3 Hk.
  rewrite (PathFacts.analyze_batch_black_box Hloaded Hbox) by exact Hk.
  destruct (LoopFacts.comprehension_total (_analyze_single self) texts) as [rs Hrs].
  { intros t. now apply (PathFacts.analyze_single_total Hloaded Hbox). }
  exists rs. pose proof Hrs as HF. apply LoopFacts.comprehension_Forall2 in HF.
  destruct Hloaded as (_ & Hm & _).
  split; [exact Hrs|]. split; [symmetry; eapply Forall2_length; exact HF|].
  split; [|split].
  - clear Hrs. induction HF as [|x y xs ys Hxy _ IH]; simpl; [reflexivity|].
    destruct (PathFacts.analyze_single_result _ _ Hxy) as [-> _]. now rewrite IH.
  - eapply Forall2_impl; [|exact HF]. intros t r Htr.
    unfold analyze. rewrite Hm, Htr. reflexivity.
  - unfold analyze. rewrite Hm, Hrs. reflexivity.
Qed.

Lemma analyze_batch_matches_single_witness :
  exists rs,
    analyze_batch Samples.mock_analyzer Samples.three_texts 2 = Ok rs
    /\ List.length rs = 3
    /\ map text rs = Samples.three_texts
    /\ analyze Samples.mock_analyzer (inr Samples.three_texts) = Ok (inr rs).
Proof.
  destruct (@analyze_batch_matches_single Samples.mock_analyzer
              Samples.mock_tokenizer Samples.mock_model
              (fun _ => Samples.mock_logits) Samples.three_texts 2
              mock_loaded mock_black_box (fun _ => eq_refl)
              ltac:(lia))
    as (rs & Hb & Hl & Ht & _ & Ha).
  exists rs. repeat split; assumption.
Defined.

(** C3: when the model returns three logits per text, every result returned by
    [analyze] (on a text or on a list) and by [analyze_batch] has exactly the
    three labels with scores that sum to 1 within 1e-5, a confidence equal to
    the greatest score, and as sentiment the first label that holds it, which
    is one of negative, neutral, positive. *)
Theorem results_well_shaped (self : MultilingualSentimentAnalyzer) :
  model_three_way self ->
  (forall t r, analyze self (inl t) = Ok (inl r) -> well_shaped r)
  /\ (forall ts rs, analyze self (inr ts) = Ok (inr rs) -> Forall well_shaped rs)
  /\ (forall ts k rs, analyze_batch self ts k = Ok rs -> Forall well_shaped rs).
Proof.
  intros Hself. split; [|split].
  - intros t r. unfold analyze. destruct (model self); [|discriminate].
    destruct (_analyze_single self t) as [r'|] eqn:E; cbn [bind]; [|discriminate].
    intros [= <-]. now apply (PathFacts.analyze_single_result _ _ E).
  - intros ts rs. unfold analyze. destruct (model self); [|discriminate].
    destruct (comprehension (_analyze_single self) ts) as [rs'|] eqn:E;
      cbn [bind]; [|discriminate].
    intros [= <-]. apply LoopFacts.comprehension_Forall2 in E.
    induction E as [|x y xs ys Hxy _ IH]; constructor; [|exact IH].
    now apply (PathFacts.analyze_single_result _ _ Hxy).
  - intros ts k rs. unfold analyze_batch.
    destruct (range0 (List.length ts) k) as [starts|]; cbn [bind]; [|discriminate].
    intros H. destruct (PathFacts.analyze_batch_results _ _ _ _ _ H)
      as (new & -> & _ & Hp). simpl. now apply Hp.
Qed.

Lemma results_well_shaped_witness :
  model_three_way Samples.mock_analyzer
  /\ exists rs,
      analyze_batch Samples.mock_analyzer Samples.three_texts 2 = Ok rs
      /\ Forall well_shaped rs.
Proof.
  split; [exact mock_three_way|].
  destruct mock_batch_total as [rs Hrs]. exists rs. split; [exact Hrs|].
  destruct (results_well_shaped mock_three_way) as (_ & _ & Hb).
  exact (Hb _ _ _ Hrs).
Defined.

(** C10: every result returned by [analyze] or [analyze_batch] carries in
    [text] the corresponding input text, unchanged. *)
Theorem analysis_echoes_text (self : MultilingualSentimentAnalyzer) :
  (forall t r, analyze self (inl t) = Ok (inl r) -> text r = t)
  /\ (forall ts rs, analyze self (inr ts) = Ok (inr rs) -> map text rs = ts)
  /\ (forall ts k rs,
        analyze_batch self ts k = Ok rs ->
        (forall j r, nth_error rs j = Some r -> nth_error ts j = Some (text r))
        /\ ((1 <= k)%Z -> map text rs = ts)).
Proof.
  split; [|split].
  - intros t r. unfold analyze. destruct (model self); [|discriminate].
    destruct (_analyze_single self t) as [r'|] eqn:E; cbn [bind]; [|discriminate].
    intros [= <-]. now apply (PathFacts.analyze_single_result _ _ E).
  - intros ts rs. unfold analyze. destruct (model self); [|discriminate].
    destruct (comprehension (_analyze_single self) ts) as [rs'|] eqn:E;
      cbn [bind]; [|discriminate].
    intros [= <-]. apply LoopFacts.comprehension_Forall2 in E.
    induction E as [|x y xs ys Hxy _ IH]; simpl; [reflexivity|].
    destruct (PathFacts.analyze_single_result _ _ Hxy) as [-> _]. now rewrite IH.
  - intros ts k rs H.
    assert (Hk : (1 <= k)%Z -> map text rs = ts).
    { intros Hk. unfold analyze_batch in H.
      destruct (LoopFacts.range0_chunks ts Hk) as (starts & Hr & Hcover).
      rewrite Hr in H. cbn [bind] in H.
      destruct (PathFacts.analyze_batch_results _ _ _ _ _ H) as (new & -> & Ht & _).
      simpl. now rewrite Ht. }
    split; [|exact Hk].
    intros j r Hj. destruct (Z.le_gt_cases 1 k) as [Hge|Hlt].
    + rewrite <- (Hk Hge). now apply map_nth_error.
    + exfalso. unfold analyze_batch, range0 in H.
      destruct (Z.eqb_spec k 0); [discriminate|].
      destruct (Z.ltb_spec k 0); [|lia].
      cbn in H. injection H as <-. now destruct j.
Qed.

Lemma analysis_echoes_text_witness :
  exists rs,
    analyze_batch Samples.mock_analyzer Samples.three_texts 2 = Ok rs
    /\ map text rs = Samples.three_texts.
Proof.
  destruct mock_batch_total as [rs Hrs]. exists rs. split; [exact Hrs|].
  destruct (analysis_echoes_text Samples.mock_analyzer) as (_ & _ & Hb).
  destruct (Hb _ _ _ Hrs) as [_ Hk]. apply Hk. lia.
Defined.

(** The scenario of the unit tests: with logits [0.1, 0.3, 0.6] the sentiment
    is the third label. *)
Lemma mock_argmax : np_argmax (softmax Samples.mock_logits) = Ok 2.
Proof.
  assert (Hz : (0 < / sum_R (map exp Samples.mock_logits))%R).
  { apply Rinv_0_lt_compat, AnalyzerFacts.sum_exp_pos. discriminate. }
  assert (Hlt : forall a b : R, (a < b)%R ->
            (exp a / sum_R (map exp Samples.mock_logits)
             < exp b / sum_R (map exp Samples.mock_logits))%R).
  { intros a b Hab. unfold Rdiv. apply Rmult_lt_compat_r; [exact Hz|].
    now apply exp_increasing. }
  unfold softmax, Samples.mock_logits at 2. cbn [map np_argmax argmax_from].
  destruct (Rlt_dec _ _) as [_|Hn]; [|exfalso; apply Hn, Hlt; lra].
  destruct (Rlt_dec _ _) as [_|Hn]; [|exfalso; apply Hn, Hlt; lra].
  reflexivity.
Qed.

Example analyze_scenario :
  exists r,
    analyze Samples.mock_analyzer (inl (lit "I love this!")) = Ok (inl r)
    /\ sentiment r = "positive"%string
    /\ text r = lit "I love this!".
Proof.
  unfold analyze. change (model Samples.mock_analyzer) with (Some Samples.mock_model).
  cbv iota.
  rewrite (PathFacts.analyze_single_black_box mock_loaded mock_black_box).
  unfold analyze_text, shape. rewrite mock_argmax. cbn [bind].
  change (index (labels Samples.mock_analyzer) 2) with (@Ok string "positive"%string).
  cbn [bind].
  destruct (np_max (softmax Samples.mock_logits)) as [v|] eqn:Ev; [|discriminate].
  cbn [bind]. eexists. split; [reflexivity|]. split; reflexivity.
Qed.

(** * The rest of the program *)

(** ** Marker patterns: [@\w+] and [#\w+] *)

Module MarkedFacts.
Import Py PyRe TextProcessor Spec SpecTools.

Lemma findall_from_skip (match_at : str -> option nat) (w s : str) :
  findall_from match_at (List.length w) (w ++ s) = findall_from match_at 0 s.
Proof. induction w as [|c w IH]; simpl; [now destruct s|exact IH]. Qed.

Section Marker.
Variable U : UnicodeTables.
Variable m : codepoint.

(** Every text is empty, or a character at which the pattern does not match
    followed by a text, or a whole match followed by a text. *)
Lemma marked_ind (P : str -> Prop) :
  P [] ->
  (forall c s, (c =? m)%N && starts_with_word U s = false -> P s -> P (c :: s)) ->
  (forall w s, w <> [] -> forallb (is_word U) w = true ->
               starts_with_word U s = false -> P s -> P (m :: w ++ s)) ->
  forall s, P s.
Proof.
  intros Hnil Hplain Htoken s.
  remember (List.length s) as n eqn:Hn. revert s Hn.
  induction n as [n IH] using lt_wf_ind. intros s Hn.
  destruct s as [|c s]; [exact Hnil|].
  destruct ((c =? m)%N && starts_with_word U s) eqn:Hc.
  - apply andb_prop in Hc. destruct Hc as [Hc Hs].
    apply N.eqb_eq in Hc. subst c.
    destruct (CleanerFacts.word_prefix U s) as (w & s' & E & Hw & Hs' & Hne).
    subst s. apply Htoken; auto.
    apply (IH (List.length s')); [|reflexivity].
    subst n. simpl. rewrite length_app. lia.
  - apply Hplain; [exact Hc|].
    apply (IH (List.length s)); [subst n; simpl; lia|reflexivity].
Qed.

Lemma no_match (c : codepoint) (s : str) :
  (c =? m)%N && starts_with_word U s = false ->
  match_marked U m (c :: s) = None.
Proof.
  intros Hc. unfold match_marked. destruct (c =? m)%N; [|reflexivity].
  simpl in Hc. now rewrite CleanerFacts.run_length_zero.
Qed.

Lemma whole_match (w s : str) :
  w <> [] -> forallb (is_word U) w = true -> starts_with_word U s = false ->
  match_marked U m (m :: w ++ s) = Some (S (List.length w)).
Proof.
  intros Hne Hw Hs. unfold match_marked.
  rewrite N.eqb_refl, CleanerFacts.run_length_word by assumption.
  destruct w; [congruence|reflexivity].
Qed.

Lemma firstn_match (w s : str) :
  firstn (S (List.length w)) (m :: w ++ s) = m :: w.
Proof.
  simpl. f_equal. rewrite firstn_app, firstn_all, Nat.sub_diag. simpl.
  apply app_nil_r.
Qed.

Lemma sub_plain (repl : str -> str) (c : codepoint) (s : str) :
  (c =? m)%N && starts_with_word U s = false ->
  sub (match_marked U m) repl (c :: s) = c :: sub (match_marked U m) repl s.
Proof. intros Hc. unfold sub. cbn [sub_from]. now rewrite no_match. Qed.

Lemma sub_token (repl : str -> str) (w s : str) :
  w <> [] -> forallb (is_word U) w = true -> starts_with_word U s = false ->
  sub (match_marked U m) repl (m :: w ++ s)
  = repl (m :: w) ++ sub (match_marked U m) repl s.
Proof.
  intros Hne Hw Hs. unfold sub. cbn [sub_from].
  rewrite whole_match, firstn_match, PyFacts.sub_from_skip by assumption.
  reflexivity.
Qed.

Lemma findall_plain (c : codepoint) (s : str) :
  (c =? m)%N && starts_with_word U s = false ->
  findall (match_marked U m) (c :: s) = findall (match_marked U m) s.
Proof. intros Hc. unfold findall. cbn [findall_from]. now rewrite no_match. Qed.

Lemma findall_token (w s : str) :
  w <> [] -> forallb (is_word U) w = true -> starts_with_word U s = false ->
  findall (match_marked U m) (m :: w ++ s)
  = (m :: w) :: findall (match_marked U m) s.
Proof.
  intros Hne Hw Hs. unfold findall. cbn [findall_from].
  rewrite whole_match, firstn_match, findall_from_skip by assumption.
  reflexivity.
Qed.

(** [names s]: the matches without their marker; [removed s]: the text
    without the matches. *)
Local Abbreviation names s := (map (fun tag => tl tag) (findall (match_marked U m) s)).
Local Abbreviation removed s := (sub (match_marked U m) delete s).

Lemma names_are_words (s : str) :
  Forall (fun w => w <> [] /\ forallb (is_word U) w = true) (names s).
Proof.
  induction s as [|c s Hc IH|w s Hne Hw Hs IH] using marked_ind.
  - constructor.
  - now rewrite findall_plain.
  - rewrite findall_token by assumption. simpl. constructor; auto.
Qed.

Lemma removed_starts (s : str) :
  starts_with_word U s = false -> starts_with_word U (removed s) = false.
Proof.
  induction s as [|c s Hc IH|w s Hne Hw Hs IH] using marked_ind.
  - reflexivity.
  - rewrite sub_plain by assumption. trivial.
  - intros _. rewrite sub_token by assumption. simpl. now apply IH.
Qed.

(** Nothing is left to find once the matches are deleted. *)
Lemma names_removed (s : str) : names (removed s) = [].
Proof.
  induction s as [|c s Hc IH|w s Hne Hw Hs IH] using marked_ind.
  - reflexivity.
  - rewrite sub_plain by assumption. rewrite findall_plain; [exact IH|].
    destruct (c =? m)%N; [|reflexivity]. simpl in *.
    now apply removed_starts.
  - rewrite sub_token by assumption. exact IH.
Qed.

Lemma sub_without_match (repl : str -> str) (s : str) :
  findall (match_marked U m) s = [] -> sub (match_marked U m) repl s = s.
Proof.
  induction s as [|c s Hc IH|w s Hne Hw Hs IH] using marked_ind.
  - reflexivity.
  - rewrite findall_plain, sub_plain by assumption. intros H. now rewrite IH.
  - rewrite findall_token by assumption. discriminate.
Qed.

Lemma removed_idempotent (s : str) : removed (removed s) = removed s.
Proof.
  apply sub_without_match.
  pose proof (names_removed s) as H.
  now apply map_eq_nil in H.
Qed.

(** Deleting the matches shortens the text by the markers and the names. *)
Lemma removed_length (s : str) :
  List.length (removed s) + List.length (names s) + total_length (names s)
  = List.length s.
Proof.
  unfold total_length.
  induction s as [|c s Hc IH|w s Hne Hw Hs IH] using marked_ind.
  - reflexivity.
  - rewrite sub_plain, findall_plain by assumption. simpl. lia.
  - rewrite sub_token, findall_token by assumption. simpl.
    rewrite length_app. lia.
Qed.

(** Keeping the names shortens the text by the markers only. *)
Lemma bare_length (s : str) :
  List.length (sub (match_marked U m) group1 s) + List.length (names s)
  = List.length s.
Proof.
  induction s as [|c s Hc IH|w s Hne Hw Hs IH] using marked_ind.
  - reflexivity.
  - rewrite sub_plain, findall_plain by assumption. simpl. lia.
  - rewrite sub_token, findall_token by assumption. simpl.
    rewrite !length_app. lia.
Qed.

End Marker.
End MarkedFacts.

(** ** The emoji class *)

Module EmojiFacts.
Import Py PyRe TextProcessor TextProcessorTools Spec SpecTools.

Lemma firstn_run (p : codepoint -> bool) (s : str) :
  forallb p (firstn (run_length p s) s) = true.
Proof.
  induction s as [|c r IH]; simpl; [reflexivity|].
  destruct (p c) eqn:Hc; simpl; [now rewrite Hc|reflexivity].
Qed.

Lemma filter_run (p : codepoint -> bool) (s : str) :
  filter p s = firstn (run_length p s) s ++ filter p (skipn (run_length p s) s).
Proof.
  induction s as [|c r IH]; simpl; [reflexivity|].
  destruct (p c) eqn:Hc; simpl; [|now rewrite Hc].
  now rewrite IH at 1.
Qed.

Lemma emoji_at (c : codepoint) (r : str) :
  emoji_pattern (c :: r)
  = if is_emoji c then Some (S (run_length is_emoji r)) else None.
Proof. unfold emoji_pattern. simpl. now destruct (is_emoji c). Qed.

Lemma sub_emoji_from (s : str) (k : nat) :
  k <= run_length is_emoji s ->
  sub_from emoji_pattern delete k s = filter (fun c => negb (is_emoji c)) s.
Proof.
  revert k. induction s as [|c r IH]; intros k Hk; [reflexivity|].
  cbn [sub_from filter]. destruct k as [|k].
  - rewrite emoji_at. destruct (is_emoji c) eqn:Hc; simpl.
    + apply IH. lia.
    + f_equal. apply IH. lia.
  - simpl in Hk. destruct (is_emoji c) eqn:Hc; [|lia]. simpl.
    apply IH. lia.
Qed.

Lemma findall_emoji_from (s : str) (k : nat) :
  k <= run_length is_emoji s ->
  List.concat (findall_from emoji_pattern k s) = filter is_emoji (skipn k s).
Proof.
  revert k. induction s as [|c r IH]; intros k Hk;
    [now destruct k|].
  cbn [findall_from]. destruct k as [|k].
  - rewrite emoji_at. cbn [skipn filter]. destruct (is_emoji c) eqn:Hc.
    + cbn [List.concat firstn app]. f_equal.
      rewrite IH by lia. symmetry. apply filter_run.
    + apply (IH 0). lia.
  - simpl in Hk. destruct (is_emoji c) eqn:Hc; [|lia].
    cbn [skipn]. apply IH. lia.
Qed.

Lemma findall_emoji_runs (s : str) (k : nat) :
  Forall (fun e => e <> [] /\ forallb is_emoji e = true)
         (findall_from emoji_pattern k s).
Proof.
  revert k. induction s as [|c r IH]; intros k; [constructor|].
  cbn [findall_from]. destruct k as [|k]; [|apply IH].
  rewrite emoji_at. destruct (is_emoji c) eqn:Hc; [|apply IH].
  constructor; [|apply IH]. split; [discriminate|].
  cbn [firstn forallb]. rewrite Hc. apply firstn_run.
Qed.

(** The classes counted by the language heuristic for Japanese, Chinese and
    Korean lie inside the last range of the emoji class. *)
Lemma cjk_is_emoji (c : codepoint) :
  is_japanese c || is_korean c = true -> is_emoji c = true.
Proof.
  unfold is_emoji. intros H.
  assert (Hr : in_range 0x24C2 0x1F251 c = true).
  { unfold is_japanese, is_korean, in_range in *.
    repeat match goal with
           | H : context [(?a <=? ?b)%N] |- _ => destruct (N.leb_spec a b)
           | |- context [(?a <=? ?b)%N] => destruct (N.leb_spec a b)
           end; simpl in *; try reflexivity; try discriminate; lia. }
  rewrite Hr. now rewrite !orb_true_r.
Qed.

Lemma in_split_join (sp : codepoint) (s cur : str) (c : codepoint) :
  In c (join [sp] (split_from cur s)) -> c = sp \/ In c cur \/ In c s.
Proof.
  revert cur. induction s as [|d r IH]; intros cur.
  - cbn [split_from]. destruct cur as [|x cur']; cbn [join]; [simpl; tauto|].
    intros H. right. left. apply in_rev. exact H.
  - cbn [split_from]. destruct (is_space d).
    + destruct cur as [|x cur'].
      * intros H. destruct (IH [] H) as [?|[[]|?]]; [tauto|simpl; tauto].
      * cbn [join]. destruct (split_from [] r) as [|w ws] eqn:E.
        -- intros H. right. left. apply in_rev. exact H.
        -- intros H. apply in_app_or in H. destruct H as [H|H].
           ++ right. left. apply in_rev. exact H.
           ++ apply in_app_or in H. destruct H as [[H|[]]|H]; [now left|].
              specialize (IH []). rewrite E in IH.
              destruct (IH H) as [?|[[]|?]]; [tauto|simpl; tauto].
    + intros H. destruct (IH (d :: cur) H) as [?|[[?|?]|?]]; simpl; tauto.
Qed.

Lemma in_lstrip (s : str) (c : codepoint) : In c (lstrip s) -> In c s.
Proof.
  induction s as [|d r IH]; simpl; [tauto|].
  destruct (is_space d); simpl; tauto.
Qed.

Lemma in_strip (s : str) (c : codepoint) : In c (strip s) -> In c s.
Proof.
  unfold strip, rstrip. intros H. apply in_rev in H. apply in_lstrip in H.
  apply in_rev in H. now apply in_lstrip.
Qed.

Lemma count_zero (q : codepoint -> bool) (s : str) :
  (forall c, In c s -> q c = false) -> count q s = 0.
Proof.
  unfold count. induction s as [|c r IH]; simpl; [reflexivity|].
  intros H. rewrite (H c) by now left. apply IH. intros; apply H; now right.
Qed.

End EmojiFacts.

(** ** Whitespace tokens *)

Module SplitFacts.
Import Py Spec PyFacts.

Lemma split_from_word (w s cur : str) :
  spaceless w -> split_from cur (w ++ s) = split_from (rev w ++ cur) s.
Proof.
  revert cur. unfold spaceless.
  induction w as [|c w IH]; intros cur Hw; [reflexivity|].
  simpl in Hw. apply andb_prop in Hw. destruct Hw as [Hc Hw].
  apply negb_true_iff in Hc. cbn [app split_from]. rewrite Hc.
  rewrite IH by exact Hw. cbn [rev]. now rewrite <- app_assoc.
Qed.

Lemma split_word_end (w : str) :
  w <> [] -> spaceless w -> split_from [] w = [w].
Proof.
  intros Hne Hw. rewrite <- (app_nil_r w) at 1.
  rewrite split_from_word by exact Hw. rewrite app_nil_r. cbn [split_from].
  destruct (rev w) as [|c r] eqn:E.
  - apply (f_equal (@rev _)) in E. rewrite rev_involutive in E. now subst.
  - rewrite <- E, rev_involutive. reflexivity.
Qed.

(** Splitting what [join] built from words gives the words back. *)
Lemma split_join (sp : codepoint) (ws : list str) :
  is_space sp = true ->
  Forall (fun w => w <> [] /\ spaceless w) ws ->
  split (join [sp] ws) = ws.
Proof.
  intros Hsp. unfold split.
  induction 1 as [|w rest [Hne Hw] Hrest IH]; [reflexivity|].
  cbn [join]. destruct rest as [|w' rest'].
  - now apply split_word_end.
  - set (tail := join [sp] (w' :: rest')) in *.
    change ([sp] ++ tail) with (sp :: tail).
    rewrite split_from_word by exact Hw. rewrite app_nil_r.
    cbn [split_from]. rewrite Hsp, IH.
    destruct (rev w) as [|c r] eqn:E.
    + apply (f_equal (@rev _)) in E. rewrite rev_involutive in E. now subst.
    + rewrite <- E, rev_involutive. reflexivity.
Qed.

End SplitFacts.

(** ** Repeated characters *)

Module SqueezeFacts.
Import Py LanguageProcessors SpecTools.

Lemma run_of (c : codepoint) (s : str) :
  exists n s', s = repeat c n ++ s' /\ not_headed c s' = true.
Proof.
  induction s as [|d r (n & s' & E & Hs')].
  - exists 0, []. split; reflexivity.
  - destruct (d =? c)%N eqn:Hd.
    + apply N.eqb_eq in Hd. subst d. exists (S n), s'. subst r. split; [reflexivity|exact Hs'].
    + exists 0, (d :: r). split; [reflexivity|]. simpl. now rewrite Hd.
Qed.

(** Every text is empty or a maximal run of one character followed by a
    text. *)
Lemma run_ind (P : str -> Prop) :
  P [] ->
  (forall c n s, not_headed c s = true -> P s -> P (repeat c (S n) ++ s)) ->
  forall s, P s.
Proof.
  intros Hnil Hrun s.
  remember (List.length s) as k eqn:Hk. revert s Hk.
  induction k as [k IH] using lt_wf_ind. intros s Hk.
  destruct s as [|c r]; [exact Hnil|].
  destruct (run_of c r) as (n & s' & E & Hs'). subst r.
  change (c :: repeat c n ++ s') with (repeat c (S n) ++ s').
  apply Hrun; [exact Hs'|].
  apply (IH (List.length s')); [|reflexivity].
  subst k. simpl. rewrite length_app. lia.
Qed.

Lemma run_length_repeat (c : codepoint) (n : nat) (s : str) :
  not_headed c s = true ->
  run_length (fun d => (d =? c)%N) (repeat c n ++ s) = n.
Proof.
  intros Hs. induction n as [|n IH]; simpl.
  - destruct s as [|d s]; [reflexivity|]. simpl in *.
    apply negb_true_iff in Hs. now rewrite Hs.
  - now rewrite N.eqb_refl, IH.
Qed.

Lemma squeeze_newlines (n : nat) (s : str) :
  squeeze (repeat newline n ++ s) = repeat newline n ++ squeeze s.
Proof.
  unfold squeeze, sub. induction n as [|n IH]; [reflexivity|].
  cbn [repeat app sub_from repeated_pattern]. rewrite N.eqb_refl.
  now rewrite IH.
Qed.

Lemma squeeze_run (c : codepoint) (n : nat) (s : str) :
  not_headed c s = true ->
  squeeze (repeat c (S n) ++ s) = squeezed_run c (S n) ++ squeeze s.
Proof.
  intros Hs. unfold squeezed_run.
  destruct (c =? newline)%N eqn:Hc.
  - apply N.eqb_eq in Hc. subst c. apply squeeze_newlines.
  - cbn [orb]. unfold squeeze, sub. cbn [repeat app sub_from repeated_pattern].
    rewrite Hc, run_length_repeat by exact Hs.
    destruct n as [|[|n]].
    + reflexivity.
    + pose proof (run_length_repeat c 0 s Hs) as H0. cbn [repeat app] in H0.
      cbn [Nat.leb Nat.ltb repeat app sub_from repeated_pattern].
      rewrite Hc, H0. reflexivity.
    + cbn [Nat.leb Nat.ltb]. cbn [firstn twice].
      rewrite <- (repeat_length c (S (S n))) at 1.
      rewrite PyFacts.sub_from_skip. reflexivity.
Qed.

Lemma squeezed_run_repeat (c : codepoint) (n : nat) :
  exists j, squeezed_run c (S n) = repeat c (S j)
            /\ j <= n /\ ((c =? newline)%N || (S j <? 3) = true).
Proof.
  unfold squeezed_run. destruct ((c =? newline)%N || (S n <? 3)) eqn:E.
  - exists n. repeat split; [lia|exact E].
  - exists 1. apply orb_false_iff in E. destruct E as [E1 E2].
    apply Nat.ltb_ge in E2. repeat split; [lia|]. rewrite E1. reflexivity.
Qed.

Lemma squeeze_head (c : codepoint) (s : str) :
  not_headed c s = true -> not_headed c (squeeze s) = true.
Proof.
  intros Hs. destruct s as [|d r]; [reflexivity|].
  destruct (run_of d r) as (n & s' & E & Hs'). subst r.
  change (d :: repeat d n ++ s') with (repeat d (S n) ++ s').
  rewrite squeeze_run by exact Hs'.
  destruct (squeezed_run_repeat d n) as (j & -> & _). exact Hs.
Qed.

Lemma has_triple_run (c : codepoint) (k : nat) (s : str) :
  not_headed c s = true -> (c =? newline)%N || (k <? 3) = true ->
  has_triple (repeat c k ++ s) = has_triple s.
Proof.
  intros Hs Hk.
  assert (Hhead : forall r, not_headed c r = true ->
            match r with
            | b :: d :: _ => (c =? b)%N && (b =? d)%N && negb (c =? newline)%N
            | _ => false
            end = false).
  { intros [|b [|d r]] Hr; try reflexivity. simpl in Hr.
    apply negb_true_iff in Hr. rewrite N.eqb_sym in Hr. now rewrite Hr. }
  destruct (c =? newline)%N eqn:Hc.
  - clear Hk. induction k as [|k IH]; [reflexivity|].
    cbn [repeat app has_triple]. rewrite IH.
    destruct (repeat c k ++ s) as [|b [|d r]]; try reflexivity.
    rewrite Hc. cbn [negb]. now rewrite andb_false_r.
  - cbn [orb] in Hk. apply Nat.ltb_lt in Hk.
    destruct k as [|[|[|k]]]; try lia.
    + reflexivity.
    + cbn [repeat app has_triple]. rewrite Hc. now rewrite (Hhead s Hs).
    + cbn [repeat app has_triple]. rewrite Hc, (Hhead s Hs).
      destruct s as [|d r]; [reflexivity|]. simpl in Hs.
      apply negb_true_iff in Hs. rewrite N.eqb_refl.
      rewrite (N.eqb_sym c d), Hs. reflexivity.
Qed.

Lemma squeeze_no_triple (s : str) : has_triple (squeeze s) = false.
Proof.
  induction s as [|c n s Hs IH] using run_ind; [reflexivity|].
  rewrite squeeze_run by exact Hs.
  destruct (squeezed_run_repeat c n) as (j & -> & _ & Hj).
  rewrite has_triple_run; [exact IH|now apply squeeze_head|exact Hj].
Qed.

Lemma squeezed_run_small (c : codepoint) (j : nat) :
  (c =? newline)%N || (S j <? 3) = true -> squeezed_run c (S j) = repeat c (S j).
Proof. intros H. unfold squeezed_run. now rewrite H. Qed.

Lemma squeeze_idempotent (s : str) : squeeze (squeeze s) = squeeze s.
Proof.
  induction s as [|c n s Hs IH] using run_ind; [reflexivity|].
  rewrite squeeze_run by exact Hs.
  destruct (squeezed_run_repeat c n) as (j & -> & _ & Hj).
  rewrite squeeze_run by now apply squeeze_head.
  now rewrite squeezed_run_small, IH.
Qed.

Lemma squeeze_length (s : str) : List.length (squeeze s) <= List.length s.
Proof.
  induction s as [|c n s Hs IH] using run_ind; [simpl; lia|].
  rewrite squeeze_run by exact Hs.
  destruct (squeezed_run_repeat c n) as (j & -> & Hjn & _).
  rewrite !length_app, !repeat_length. lia.
Qed.

(** A text without three equal adjacent characters is left as it is. *)
Lemma squeeze_fixed (s : str) : has_triple s = false -> squeeze s = s.
Proof.
  induction s as [|c n s Hs IH] using run_ind; [reflexivity|].
  intros H. rewrite squeeze_run by exact Hs.
  destruct ((c =? newline)%N || (S n <? 3)) eqn:E.
  - rewrite has_triple_run in H by assumption.
    unfold squeezed_run. rewrite E. now rewrite IH.
  - exfalso. apply orb_false_iff in E. destruct E as [E1 E2].
    apply Nat.ltb_ge in E2. destruct n as [|[|n]]; try lia.
    cbn [repeat app has_triple] in H. rewrite !N.eqb_refl, E1 in H.
    discriminate.
Qed.

End SqueezeFacts.

Import PyRe TextProcessorTools SpecTools.

Example extract_hashtags_tagged :
  extract_hashtags excerpt_tables MoreSamples.tagged = [lit "a"; lit "b"; lit "d_e"]
  /\ extract_mentions excerpt_tables MoreSamples.tagged = [lit "c"]
  /\ hashtag_step excerpt_tables true MoreSamples.tagged = lit " # @c !"
  /\ hashtag_step excerpt_tables false MoreSamples.tagged = lit "a #b @c d_e!".
Proof. repeat split. Qed.

(** X1: [tokenize_simple] undoes [' '.join]: joining non-empty,
    whitespace-free words with single spaces and splitting the result gives
    the words back. *)
Theorem tokenize_simple_join (ws : list str) :
  Forall (fun w => w <> [] /\ spaceless w) ws ->
  tokenize_simple (join (lit " ") ws) = ws.
Proof. intros H. apply (SplitFacts.split_join 0x20%N); [reflexivity|exact H]. Qed.

Lemma tokenize_simple_join_witness :
  Forall (fun w => w <> [] /\ spaceless w) MoreSamples.words
  /\ tokenize_simple (lit "check out !!!") = MoreSamples.words.
Proof.
  assert (H : Forall (fun w => w <> [] /\ spaceless w) MoreSamples.words).
  { repeat constructor; discriminate. }
  split; [exact H|]. exact (tokenize_simple_join H).
Defined.

(** X2: a cleaned text is the single-space join of its own whitespace tokens,
    for every input and all options; the same holds for every element of
    [batch_clean], which has one element per input text. *)
Theorem clean_text_is_joined_tokens (U : UnicodeTables) (o : CleaningOptions) :
  (forall t, join (lit " ") (tokenize_simple (clean_text U o t)) = clean_text U o t)
  /\ (forall texts,
        List.length (batch_clean U o texts) = List.length texts
        /\ Forall (fun c => join (lit " ") (tokenize_simple c) = c)
                  (batch_clean U o texts)).
Proof.
  assert (H : forall t,
             join (lit " ") (tokenize_simple (clean_text U o t)) = clean_text U o t).
  { intros [|c r]; [reflexivity|].
    unfold clean_text, after_hashtags, tokenize_simple.
    match goal with
    | |- context [strip (join (lit " ") (split ?x))] => set (u := x)
    end.
    assert (Hw : Forall (fun w => w <> [] /\ spaceless w) (split u))
      by (apply PyFacts.split_from_words; reflexivity).
    destruct (PyFacts.join_shape (lit " ") (words := split u)) as (Hs & He & _);
      [reflexivity|exact Hw|].
    rewrite PyFacts.strip_id by assumption.
    change (lit " ") with [0x20%N].
    now rewrite (SplitFacts.split_join 0x20%N) by (reflexivity || exact Hw). }
  split; [exact H|]. intros texts. unfold batch_clean. split; [apply length_map|].
  apply Forall_map, Forall_forall. intros t _. apply H.
Qed.

(** X3: every name returned by [extract_hashtags] and by [extract_mentions] is
    a non-empty run of word characters (so it never contains the marker, nor
    whitespace handled as a word break). *)
Theorem extracted_names_are_words (U : UnicodeTables) (text : str) :
  Forall (fun w => w <> [] /\ forallb (is_word U) w = true) (extract_hashtags U text)
  /\ Forall (fun w => w <> [] /\ forallb (is_word U) w = true)
            (extract_mentions U text).
Proof. split; apply MarkedFacts.names_are_words. Qed.

(** X4: the removal steps leave nothing to extract and are idempotent: after
    the hashtag step with removal enabled [extract_hashtags] finds nothing,
    after the mention step [extract_mentions] finds nothing, and applying
    either step twice is the same as applying it once. *)
Theorem removal_leaves_nothing (U : UnicodeTables) (text : str) :
  extract_hashtags U (hashtag_step U true text) = []
  /\ extract_mentions U (remove_mentions_step U text) = []
  /\ hashtag_step U true (hashtag_step U true text) = hashtag_step U true text
  /\ remove_mentions_step U (remove_mentions_step U text)
     = remove_mentions_step U text.
Proof.
  repeat split.
  - apply (MarkedFacts.names_removed U hash_sign).
  - apply (MarkedFacts.names_removed U at_sign).
  - apply (MarkedFacts.removed_idempotent U hash_sign).
  - apply (MarkedFacts.removed_idempotent U at_sign).
Qed.

(** X5: length accounting of the hashtag and mention steps.  Removal shortens
    the text by one marker per extracted name plus the lengths of the names;
    the default hashtag step (keep the word) shortens it by exactly one
    character per extracted hashtag. *)
Theorem removal_length_accounting (U : UnicodeTables) (text : str) :
  List.length (hashtag_step U true text)
  + List.length (extract_hashtags U text) + total_length (extract_hashtags U text)
  = List.length text
  /\ List.length (hashtag_step U false text) + List.length (extract_hashtags U text)
     = List.length text
  /\ List.length (remove_mentions_step U text)
     + List.length (extract_mentions U text) + total_length (extract_mentions U text)
     = List.length text.
Proof.
  repeat split.
  - apply (MarkedFacts.removed_length U hash_sign).
  - apply (MarkedFacts.bare_length U hash_sign).
  - apply (MarkedFacts.removed_length U at_sign).
Qed.

(** X6: [extract_hashtags] returns, in order, exactly the words of the [#word]
    tokens that the hashtag step of [clean_text] deletes or strips. *)
Theorem extract_hashtags_reading (U : UnicodeTables) (u : str) (segs : list segment) :
  tokenized U u segs -> extract_hashtags U u = hashtag_words segs.
Proof.
  unfold extract_hashtags, hashtag_pattern.
  induction 1 as [|c s segs Hc _ IH|w s segs Hne Hw Hs _ IH].
  - reflexivity.
  - rewrite MarkedFacts.findall_plain by exact Hc. exact IH.
  - rewrite MarkedFacts.findall_token by assumption. simpl. now rewrite IH.
Qed.

Lemma extract_hashtags_reading_witness :
  exists segs,
    tokenized excerpt_tables MoreSamples.tagged segs
    /\ hashtag_words segs = [lit "a"; lit "b"; lit "d_e"].
Proof.
  destruct (CleanerFacts.tokenized_exists excerpt_tables MoreSamples.tagged)
    as [segs Hsegs].
  exists segs. split; [exact Hsegs|].
  rewrite <- (extract_hashtags_reading Hsegs). reflexivity.
Defined.

(** X7: the emoji step deletes exactly the characters of the emoji class and
    nothing else; [extract_emojis] returns those characters, in order, cut
    into non-empty runs. *)
Theorem emoji_step_is_filter (text : str) :
  remove_emojis_step text = filter (fun c => negb (is_emoji c)) text
  /\ List.concat (extract_emojis text) = filter is_emoji text
  /\ Forall (fun e => e <> [] /\ forallb is_emoji e = true) (extract_emojis text).
Proof.
  repeat split.
  - apply EmojiFacts.sub_emoji_from. lia.
  - apply (@EmojiFacts.findall_emoji_from text 0). lia.
  - apply EmojiFacts.findall_emoji_runs.
Qed.

(** X8: the last range of the emoji class (U+24C2 to U+1F251) contains the
    kana, CJK and Hangul ranges of the language heuristic.  So with
    [remove_emojis] on (and [lowercase] off) a cleaned text contains no
    character of the emoji class, in particular no Japanese, Chinese or
    Korean character, and the heuristic answers "en" or "unknown" on it. *)
Theorem remove_emojis_erases_cjk (U : UnicodeTables) (o : CleaningOptions) (t : str) :
  remove_emojis o = true -> lowercase o = false ->
  Forall (fun c => is_emoji c = false) (clean_text U o t)
  /\ count is_japanese (clean_text U o t) = 0
  /\ count is_korean (clean_text U o t) = 0
  /\ In (fst (_simple_language_detect (clean_text U o t))) ["en"; "unknown"]%string.
Proof.
  intros He Hl.
  assert (Hall : forall c, In c (clean_text U o t) -> is_emoji c = false).
  { destruct t as [|x r]; [intros c []|].
    unfold clean_text, after_hashtags. rewrite He, Hl.
    intros c Hc. apply EmojiFacts.in_strip in Hc.
    change (lit " ") with [0x20%N] in Hc. unfold split in Hc.
    apply EmojiFacts.in_split_join in Hc. destruct Hc as [->|[[]|Hc]]; [reflexivity|].
    unfold sub in Hc. rewrite EmojiFacts.sub_emoji_from in Hc by lia.
    apply filter_In in Hc. destruct Hc as [_ Hc].
    now apply negb_true_iff in Hc. }
  assert (Hj : count is_japanese (clean_text U o t) = 0).
  { apply EmojiFacts.count_zero. intros c Hc. specialize (Hall c Hc).
    destruct (is_japanese c) eqn:E; [|reflexivity].
    rewrite (EmojiFacts.cjk_is_emoji c) in Hall; [discriminate|now rewrite E]. }
  assert (Hk : count is_korean (clean_text U o t) = 0).
  { apply EmojiFacts.count_zero. intros c Hc. specialize (Hall c Hc).
    destruct (is_korean c) eqn:E; [|reflexivity].
    rewrite (EmojiFacts.cjk_is_emoji c) in Hall;
      [discriminate|now rewrite E, orb_true_r]. }
  split; [now apply Forall_forall|]. split; [exact Hj|]. split; [exact Hk|].
  pose proof (HeuristicFacts.count_le is_chinese is_japanese (clean_text U o t)
                HeuristicFacts.chinese_is_japanese) as Hc.
  unfold _simple_language_detect. rewrite Hj, Hk in *.
  assert (Hc0 : count is_chinese (clean_text U o t) = 0) by lia.
  rewrite Hc0. cbn [Z.of_nat Z.add].
  set (l := Z.of_nat (count is_latin (clean_text U o t))).
  assert (0 <= l)%Z by (unfold l; lia).
  destruct (Z.eqb_spec l 0); [simpl; tauto|].
  rewrite !HeuristicFacts.Qgtb_scaled.
  destruct (Z.ltb_spec (l * 3) (0 * 10)); [lia|]. simpl. tauto.
Qed.

Example clean_text_kana_with_remove_emojis :
  clean_text excerpt_tables Samples.removals_only MoreSamples.kore_ok = lit "ok".
Proof. reflexivity. Qed.

Lemma remove_emojis_erases_cjk_witness :
  remove_emojis Samples.removals_only = true
  /\ lowercase Samples.removals_only = false
  /\ count is_japanese (clean_text excerpt_tables Samples.removals_only
                          MoreSamples.kore_ok) = 0
  /\ count is_japanese MoreSamples.kore_ok = 2.
Proof.
  split; [reflexivity|]. split; [reflexivity|]. split; [|reflexivity].
  apply (@remove_emojis_erases_cjk excerpt_tables Samples.removals_only
           MoreSamples.kore_ok eq_refl eq_refl).
Defined.

Import LanguageProcessors.

Example normalize_japanese_sugoi :
  normalize_japanese excerpt_tables MoreSamples.sugoi
  = [0x3059; 0x3054; 0x30FC; 0x30FC; 0x3044]%N.
Proof. reflexivity. Qed.

(** X9: [normalize_japanese] leaves no character (other than a newline) three
    times in a row; its regex step is idempotent, never lengthens the
    normalised text, and leaves a text without such a triple unchanged. *)
Theorem normalize_japanese_no_triple (U : UnicodeTables) (text : str) :
  has_triple (normalize_japanese U text) = false
  /\ squeeze (normalize_japanese U text) = normalize_japanese U text
  /\ List.length (normalize_japanese U text) <= List.length (nfkc U text)
  /\ (has_triple (nfkc U text) = false -> normalize_japanese U text = nfkc U text).
Proof.
  unfold normalize_japanese. repeat split.
  - apply SqueezeFacts.squeeze_no_triple.
  - apply SqueezeFacts.squeeze_idempotent.
  - apply SqueezeFacts.squeeze_length.
  - apply SqueezeFacts.squeeze_fixed.
Qed.

Lemma normalize_japanese_no_triple_witness :
  has_triple (nfkc excerpt_tables Samples.hello) = false
  /\ normalize_japanese excerpt_tables Samples.hello = Samples.hello.
Proof.
  split; [reflexivity|].
  destruct (normalize_japanese_no_triple excerpt_tables Samples.hello)
    as (_ & _ & _ & H).
  exact (H eq_refl).
Defined.

Lemma characters_spec (text : str) :
  List.concat (characters text) = filter (fun c => negb (c =? space)%N) text
  /\ Forall (fun token => List.length token = 1) (characters text).
Proof.
  unfold characters. split.
  - induction (filter (fun c => negb (c =? space)%N) text) as [|c r IH];
      simpl; [reflexivity|now rewrite IH].
  - apply Forall_map, Forall_forall. reflexivity.
Qed.

(** X10: the tokenizer library of [JapaneseProcessor] and [ChineseProcessor]
    is loaded at most once: after a call of [tokenize] that found the
    library, every later call uses that tokenizer whatever the import would
    give then.  Without the library, [tokenize] leaves the processor as it
    was and returns one token per character other than U+0020, in order. *)
Theorem tokenize_loads_once (t : Segmenter) (later : option Segmenter)
    (text1 text2 : str) :
  snd (tokenize (Some t) new_processor text1) = t text1
  /\ tokenize later (fst (tokenize (Some t) new_processor text1)) text2
     = (fst (tokenize (Some t) new_processor text1), t text2)
  /\ tokenize None new_processor text1 = (new_processor, characters text1)
  /\ List.concat (characters text1) = filter (fun c => negb (c =? space)%N) text1
  /\ Forall (fun token => List.length token = 1) (characters text1).
Proof.
  repeat split; try reflexivity; apply characters_spec.
Qed.

(** ** More on the inference wrapper *)

Module WrapperFacts.
Import SentimentModel LoopFacts AnalyzerFacts PathFacts.
Local Open Scope result_scope.

Lemma exp_le_sum (x : R) (l : list R) : In x l -> (exp x <= sum_R (map exp l))%R.
Proof.
  induction l as [|y r IH]; simpl; [tauto|].
  pose proof (sum_exp_nonneg r) as Hsum. pose proof (exp_pos y) as Hy.
  intros [->|Hin]; [lra|]. specialize (IH Hin). lra.
Qed.

(** Every score is a probability. *)
Lemma softmax_range (l : list R) (y : R) : In y (softmax l) -> (0 < y <= 1)%R.
Proof.
  unfold softmax. intros H. apply in_map_iff in H. destruct H as (x & <- & Hx).
  pose proof (exp_le_sum x l Hx) as Hle. pose proof (exp_pos x) as Hpos.
  set (z := sum_R (map exp l)) in *.
  assert (Hz : (0 < z)%R) by lra.
  split.
  - apply Rdiv_lt_0_compat; assumption.
  - apply (Rmult_le_reg_r z); [exact Hz|].
    unfold Rdiv. rewrite Rmult_assoc, Rinv_l by lra. lra.
Qed.

Lemma shape_inv (self : MultilingualSentimentAnalyzer) (t : Py.str)
    (row : list R) (r : AnalysisResult) :
  shape self t row = Ok r ->
  text r = t /\ scores r = combine (labels self) row
  /\ exists i, first_max row i (confidence r)
               /\ nth_error (labels self) i = Some (sentiment r).
Proof.
  unfold shape.
  destruct (np_argmax row) as [i|] eqn:Ei; cbn [bind]; [|discriminate].
  unfold index.
  destruct (nth_error (labels self) i) as [lbl|] eqn:En; cbn [bind]; [|discriminate].
  destruct (np_max row) as [v|] eqn:Ev; cbn [bind]; [|discriminate].
  intros E.
  assert (Hr : r = {| text := t; sentiment := lbl; confidence := v;
                      scores := combine (labels self) row |}) by congruence.
  subst r. cbn [text scores confidence sentiment].
  repeat split. exists i. split; [now apply argmax_max|exact En].
Qed.

Lemma for_each_Forall {A B : Type} (P : B -> Prop)
    (body : list B -> A -> result (list B)) :
  (forall s a s', Forall P s -> body s a = Ok s' -> Forall P s') ->
  forall l s s', Forall P s -> for_each body l s = Ok s' -> Forall P s'.
Proof.
  intros Hstep. induction l as [|a r IH]; intros s s' Hs; simpl.
  - intros [= <-]. exact Hs.
  - destruct (body s a) as [s1|e] eqn:E; cbn [bind]; [|discriminate].
    apply IH. eapply Hstep; eassumption.
Qed.

(** Every returned result was shaped from the softmax of a row of logits that
    the model gave. *)
Section FromShape.
Variable self : MultilingualSentimentAnalyzer.
Variable Qrow : list R -> Prop.
Hypothesis Hmodel :
  forall m inputs rows, model self = Some m -> m inputs = Ok rows -> Forall Qrow rows.

Local Abbreviation shaped :=
  (fun r : AnalysisResult => exists t l, Qrow l /\ shape self t (softmax l) = Ok r).

Lemma single_shaped (t : Py.str) (r : AnalysisResult) :
  _analyze_single self t = Ok r -> shaped r.
Proof.
  unfold _analyze_single.
  destruct (tokenizer self) as [tok|]; cbn [callable bind]; [|discriminate].
  destruct (tok (Single t) false) as [inputs|]; cbn [bind]; [|discriminate].
  destruct (model self) as [m|] eqn:Em; cbn [callable bind]; [|discriminate].
  destruct (m inputs) as [logits|] eqn:El; cbn [bind]; [|discriminate].
  unfold index. destruct (nth_error (map softmax logits) 0) as [row|] eqn:Er;
    cbn [bind]; [|discriminate].
  intros Hs. rewrite nth_error_map in Er.
  destruct (nth_error logits 0) as [l|] eqn:E0; [|discriminate].
  injection Er as <-. exists t, l. split; [|exact Hs].
  assert (HQ : Forall Qrow logits) by (eapply Hmodel; [reflexivity|exact El]).
  rewrite Forall_forall in HQ.
  apply HQ. eapply nth_error_In; eassumption.
Qed.

Lemma chunk_shaped (results results' : list AnalysisResult) (batch : list Py.str) :
  Forall shaped results ->
  analyze_chunk self results batch = Ok results' -> Forall shaped results'.
Proof.
  intros Hres. unfold analyze_chunk.
  destruct (tokenizer self) as [tok|]; cbn [callable bind]; [|discriminate].
  destruct (tok (Batch batch) true) as [inputs|]; cbn [bind]; [|discriminate].
  destruct (model self) as [m|] eqn:Em; cbn [callable bind]; [|discriminate].
  destruct (m inputs) as [logits|] eqn:El; cbn [bind]; [|discriminate].
  intros H.
  assert (HQ0 : Forall Qrow logits) by (eapply Hmodel; [reflexivity|exact El]).
  assert (HQ : Forall (fun row => exists l, row = softmax l /\ Qrow l)
                      (map softmax logits)).
  { apply Forall_map. eapply Forall_impl; [|exact HQ0].
    intros l Hl. now exists l. }
  assert (HP : forall t row r, (exists l, row = softmax l /\ Qrow l) ->
                               shape self t row = Ok r -> shaped r).
  { intros t row r (l & -> & Hl) Hs. now exists t, l. }
  destruct (@inner_loop self (map softmax logits) _ shaped HQ HP _ _ _ H)
    as (new & -> & _ & Hnew).
  apply Forall_app. now split.
Qed.

Lemma returned_shaped (r : AnalysisResult) : returned self r -> shaped r.
Proof.
  pose proof single_shaped as Hsingle. pose proof chunk_shaped as Hchunk.
  intros [(t & H)|[(ts & rs & H & Hin)|(ts & k & rs & H & Hin)]].
  - unfold analyze in H. destruct (model self); [|discriminate].
    destruct (_analyze_single self t) as [r'|] eqn:E; cbn [bind] in H; [|discriminate].
    injection H as <-. eapply Hsingle; eassumption.
  - unfold analyze in H. destruct (model self); [|discriminate].
    destruct (comprehension (_analyze_single self) ts) as [rs'|] eqn:E;
      cbn [bind] in H; [|discriminate].
    injection H as <-. apply comprehension_Forall2 in E.
    induction E as [|x y xs ys Hxy _ IH]; [destruct Hin|].
    destruct Hin as [<-|Hin]; [eapply Hsingle; eassumption|now apply IH].
  - unfold analyze_batch in H.
    destruct (range0 (List.length ts) k) as [starts|]; cbn [bind] in H; [|discriminate].
    assert (HF : Forall shaped rs).
    { eapply for_each_Forall with (P := shaped); [|constructor|exact H].
      intros s a s' Hs Ha. cbv beta in Ha. exact (Hchunk _ _ _ Hs Ha). }
    rewrite Forall_forall in HF. now apply HF.
Qed.
End FromShape.

(** The inner loop of [analyze_batch] when the model gave too few rows. *)
Lemma inner_loop_short (self : MultilingualSentimentAnalyzer) (rows : list (list R))
    (b : list Py.str) (a : nat) (results : list AnalysisResult) :
  labels self = default_labels ->
  Forall (fun row => List.length row = 3) rows ->
  a <= List.length rows -> List.length rows < a + List.length b ->
  for_each
    (fun results jt =>
       row <- index (map softmax rows) (fst jt);;
       r <- shape self (snd jt) row;;
       Ok (results ++ [r]))
    (combine (seq a (List.length b)) b) results
  = Raise IndexError.
Proof.
  intros Hl Hrows. revert a results.
  induction b as [|t b IH]; intros a results Ha Hlt; [simpl in Hlt; lia|].
  cbn [List.length seq combine for_each fst snd]. unfold index at 1.
  rewrite nth_error_map.
  destruct (nth_error rows a) as [row|] eqn:Er; cbn [option_map bind].
  - assert (Hrow : List.length row = 3).
    { rewrite Forall_forall in Hrows. apply Hrows.
      eapply nth_error_In; eassumption. }
    destruct (shape_total self t row Hl Hrow) as [r ->]. cbn [bind].
    apply IH.
    + assert (a < List.length rows) by (apply nth_error_Some; congruence). lia.
    + simpl in Hlt. lia.
  - reflexivity.
Qed.

Lemma range0_first (n : nat) (k : Z) :
  (1 <= k)%Z -> 0 < n -> exists rest, range0 n k = Ok (0 :: rest).
Proof.
  intros Hk Hn. unfold range0.
  destruct (Z.eqb_spec k 0); [lia|]. destruct (Z.ltb_spec k 0); [lia|].
  set (j := Z.to_nat k). assert (Hj : 0 < j) by (unfold j; lia).
  assert (Hc : 1 <= (n + j - 1) / j).
  { apply Nat.div_le_lower_bound; lia. }
  destruct ((n + j - 1) / j) as [|c]; [lia|].
  simpl. eauto.
Qed.

(** The slices taken at the indices of [range(0, n, k)] are non-empty and at
    most [k] long. *)
Lemma slices_bounded {A : Type} (l : list A) (k c : nat) :
  0 < k -> (c - 1) * k < List.length l \/ c = 0 ->
  Forall (fun b : list A => 1 <= List.length b <= k)
         (map (fun i => firstn k (skipn i l)) (map (fun q => q * k) (seq 0 c))).
Proof.
  intros Hk Hc. rewrite map_map. apply Forall_map, Forall_forall.
  intros q Hq. apply in_seq in Hq.
  rewrite length_firstn, length_skipn.
  assert (q * k < List.length l) by nia. lia.
Qed.

End WrapperFacts.

(** X11: every result returned by [analyze] or [analyze_batch], whatever the
    model, has a confidence in (0, 1] and scores in [0, 1]; when the model
    returns three logits per text the confidence is at least 1/3. *)
Theorem confidence_bounds (self : MultilingualSentimentAnalyzer) (r : AnalysisResult) :
  returned self r ->
  (0 < confidence r <= 1)%R
  /\ Forall (fun ls => (0 <= snd ls <= 1)%R) (scores r)
  /\ (model_three_way self -> (1 / 3 <= confidence r)%R).
Proof.
  intros Hret.
  assert (Htrue : forall (m : Model) (inputs : Encoding) (rows : list (list R)),
             model self = Some m -> m inputs = Ok rows ->
             Forall (fun _ : list R => True) rows)
    by (intros; apply Forall_forall; trivial).
  destruct (@WrapperFacts.returned_shaped self (fun _ => True) Htrue r Hret)
    as (t & l & _ & Hs).
  destruct (WrapperFacts.shape_inv _ _ _ Hs) as (_ & Hsc & i & (Hnth & Hall & _) & _).
  split; [|split].
  - apply (WrapperFacts.softmax_range l). eapply nth_error_In; eassumption.
  - rewrite Hsc. apply Forall_forall. intros [lbl s] Hin. simpl.
    assert (Hr : (0 < s <= 1)%R)
      by (apply (WrapperFacts.softmax_range l); eapply in_combine_r; eassumption).
    lra.
  - intros [Hl Hm].
    destruct (@WrapperFacts.returned_shaped self (fun row => List.length row = 3)
                (fun m inputs rows Em E => Hm m Em inputs rows E) r Hret)
      as (t3 & l3 & Hlen & Hs3).
    destruct (WrapperFacts.shape_inv _ _ _ Hs3) as (_ & _ & j & (_ & Hall3 & _) & _).
    destruct l3 as [|a [|b [|c [|]]]]; try discriminate.
    assert (Hsum : sum_R (softmax [a; b; c]) = 1%R)
      by (apply AnalyzerFacts.softmax_sum; discriminate).
    unfold softmax in Hsum, Hall3.
    set (z := sum_R (map exp [a; b; c])) in *. clearbody z.
    cbn [map] in Hsum, Hall3. unfold sum_R in Hsum. cbn [fold_right] in Hsum.
    pose proof (Hall3 0 _ eq_refl) as H0. pose proof (Hall3 1 _ eq_refl) as H1.
    pose proof (Hall3 2 _ eq_refl) as H2. lra.
Qed.

Lemma confidence_bounds_witness :
  exists r,
    returned Samples.mock_analyzer r
    /\ (0 < confidence r <= 1)%R /\ (1 / 3 <= confidence r)%R.
Proof.
  destruct analyze_scenario as (r & H & _).
  assert (Hret : returned Samples.mock_analyzer r) by (left; eauto).
  exists r. split; [exact Hret|].
  destruct (confidence_bounds Hret) as (Hc & _ & H3).
  split; [exact Hc|exact (H3 mock_three_way)].
Defined.

(** X13: when the model gives fewer rows of logits than the first batch has
    texts (each row with three logits), [analyze_batch] raises [IndexError]
    at the first text without a row and returns nothing; this is the
    situation of the integration test [test_batch_analysis_pipeline], whose
    mock has two rows for three texts. *)
Theorem too_few_rows_raise (self : MultilingualSentimentAnalyzer)
    (tok : Tokenizer) (m : Model) (texts : list Py.str) (k : Z)
    (inputs : Encoding) (rows : list (list R)) :
  loaded self tok m -> (1 <= k)%Z ->
  tok (Batch (firstn (Z.to_nat k) texts)) true = Ok inputs ->
  m inputs = Ok rows ->
  Forall (fun row => List.length row = 3) rows ->
  List.length rows < List.length (firstn (Z.to_nat k) texts) ->
  analyze_batch self texts k = Raise IndexError.
Proof.
  intros (Ht & Hm & Hl) Hk Htok Hrows H3 Hshort.
  assert (Hn : 0 < List.length texts).
  { destruct texts; [|simpl; lia]. rewrite firstn_nil in Hshort. simpl in Hshort. lia. }
  unfold analyze_batch.
  destruct (WrapperFacts.range0_first Hk Hn) as (rest & ->).
  cbn [bind for_each skipn]. unfold analyze_chunk at 1.
  rewrite Ht, Hm. cbn [callable bind]. rewrite Htok. cbn [bind].
  rewrite Hrows. cbn [bind]. unfold enumerate.
  rewrite (WrapperFacts.inner_loop_short self (firstn (Z.to_nat k) texts) (a := 0) []
             Hl H3); [reflexivity|lia|lia].
Qed.

Lemma too_few_rows_raise_witness :
  analyze_batch MoreSamples.two_row_analyzer Samples.three_texts 32 = Raise IndexError.
Proof.
  apply (@too_few_rows_raise MoreSamples.two_row_analyzer
           MoreSamples.two_row_tokenizer MoreSamples.two_row_model
           Samples.three_texts 32 _ _ ltac:(repeat split) ltac:(lia) eq_refl eq_refl).
  - repeat constructor.
  - simpl. lia.
Defined.

(** X14: [analyze_batch] does not validate [batch_size]: with 0 it raises
    [ValueError] (from [range]) for every list of texts, and with a negative
    value it returns the empty list for every list of texts, loaded or not. *)
Theorem analyze_batch_nonpositive_batch_size (self : MultilingualSentimentAnalyzer)
    (texts : list Py.str) :
  analyze_batch self texts 0 = Raise ValueError
  /\ forall k, (k < 0)%Z -> analyze_batch self texts k = Ok [].
Proof.
  split; [reflexivity|]. intros k Hk. unfold analyze_batch, range0.
  destruct (Z.eqb_spec k 0); [lia|]. destruct (Z.ltb_spec k 0); [|lia].
  reflexivity.
Qed.

Lemma analyze_batch_nonpositive_batch_size_witness :
  analyze_batch Samples.mock_analyzer Samples.three_texts (-1) = Ok [].
Proof.
  apply (analyze_batch_nonpositive_batch_size Samples.mock_analyzer Samples.three_texts).
  lia.
Defined.

(** X15: for a batch size [k >= 1] the loop of [analyze_batch] runs over
    ceil(n / k) batches that are consecutive slices of the input, each with
    at least one and at most [k] texts, and together they are the input. *)
Theorem batches_partition_texts (texts : list Py.str) (k : Z) :
  (1 <= k)%Z ->
  exists starts,
    range0 (List.length texts) k = Ok starts
    /\ List.concat (batches texts k starts) = texts
    /\ Forall (fun b => 1 <= List.length b <= Z.to_nat k) (batches texts k starts)
    /\ List.length starts = (List.length texts + Z.to_nat k - 1) / Z.to_nat k.
Proof.
  intros Hk. unfold range0, batches.
  destruct (Z.eqb_spec k 0) as [?|_]; [lia|].
  destruct (Z.ltb_spec k 0) as [?|_]; [lia|].
  eexists. split; [reflexivity|].
  set (j := Z.to_nat k). assert (Hj : 0 < j) by (unfold j; lia).
  set (n := List.length texts).
  pose proof (Nat.div_mod_eq (n + j - 1) j) as Hd.
  pose proof (Nat.mod_upper_bound (n + j - 1) j) as Hm.
  split; [|split].
  - rewrite (LoopFacts.slices_cover j texts ((n + j - 1) / j) 0); [reflexivity|].
    simpl. fold n. nia.
  - apply WrapperFacts.slices_bounded; [exact Hj|]. fold n.
    destruct ((n + j - 1) / j) as [|c] eqn:E; [now right|left].
    simpl. rewrite Nat.sub_0_r. nia.
  - now rewrite length_map, length_seq.
Qed.

Lemma batches_partition_texts_witness :
  exists starts,
    range0 3 2 = Ok starts
    /\ batches Samples.three_texts 2 starts
       = [[lit "I love this!"; lit "I hate this!"]; [lit "It's okay."]].
Proof.
  destruct (@batches_partition_texts Samples.three_texts 2 ltac:(lia))
    as (starts & Hr & _).
  exists starts. split; [exact Hr|].
  change (List.length Samples.three_texts) with 3 in Hr.
  injection Hr as <-. reflexivity.
Defined.

(** X16: a failed download leaves the analyzer guarded.  If fetching the
    tokenizer raises, [load_model] raises the same exception and the analyzer
    is unchanged; if fetching the model raises after the tokenizer was
    fetched, the tokenizer is set, the model is still [None], and [analyze]
    keeps raising "Model not loaded" for every input. *)
Theorem load_model_failure_keeps_guard (hub : Hub) (name : string) (e : exn) :
  (tokenizer_from_pretrained hub name = Raise e ->
   load_model hub (__init__ name) = (__init__ name, Raise e))
  /\ (forall tok,
        tokenizer_from_pretrained hub name = Ok tok ->
        model_from_pretrained hub name = Raise e ->
        snd (load_model hub (__init__ name)) = Raise e
        /\ SentimentModel.tokenizer (fst (load_model hub (__init__ name))) = Some tok
        /\ model (fst (load_model hub (__init__ name))) = None
        /\ forall t,
             analyze (fst (load_model hub (__init__ name))) t
             = Raise (RuntimeError "Model not loaded. Call load_model() first.")).
Proof.
  split.
  - intros H. unfold load_model. cbn [model_name __init__]. now rewrite H.
  - intros tok Ht Hm. unfold load_model. cbn [model_name __init__].
    rewrite Ht. cbn [model_name]. rewrite Hm. repeat split.
Qed.

Lemma load_model_failure_keeps_guard_witness :
  analyze (fst (load_model MoreSamples.failing_model_hub Samples.fresh_analyzer))
          (inl Samples.hello)
  = Raise (RuntimeError "Model not loaded. Call load_model() first.").
Proof.
  destruct (load_model_failure_keeps_guard MoreSamples.failing_model_hub
              Samples.default_model_name (ExternalError "OSError")) as [_ H].
  destruct (H Samples.mock_tokenizer eq_refl eq_refl) as (_ & _ & _ & Ha).
  apply Ha.
Defined.

(** ** The HTTP handlers *)

(** X17: with an analyzer loaded at startup whose model is a function of the
    text with three logits, [POST /analyze] answers every text with a
    well-shaped result that echoes the text, and [POST /analyze/batch] with a
    batch size of at least one answers with one result per text, in order,
    and a [count] equal to the number of texts. *)
Theorem api_after_startup (hub : Hub) (a : MultilingualSentimentAnalyzer)
    (f : Py.str -> list R) :
  Api.startup_event hub = (Some a, Ok tt) ->
  (forall tok m, loaded a tok m -> black_box tok m f) ->
  (forall t, List.length (f t) = 3) ->
  (forall request_text,
      exists r, Api.analyze_text (Some a) request_text = Api.Returns (inl r)
                /\ text r = request_text /\ well_shaped r)
  /\ (forall request_texts batch_size,
        (1 <= batch_size)%Z ->
        exists rs,
          Api.analyze_batch (Some a) request_texts batch_size
          = Api.Returns {| Api.results := rs;
                           Api.count := List.length request_texts |}
          /\ map text rs = request_texts).
Proof.
  intros Hstart Hbb H3. unfold Api.startup_event in Hstart.
  destruct (load_model hub (__init__ "cardiffnlp/twitter-xlm-roberta-base-sentiment"))
    as [a' outcome] eqn:Hload.
  injection Hstart as -> ->.
  destruct (load_model_loaded _ _ Hload) as (tok & m & Hloaded).
  pose proof (Hbb tok m Hloaded) as Hbox.
  pose proof Hloaded as (_ & Hm & Hl).
  split.
  - intros t. destruct (PathFacts.analyze_single_total Hloaded Hbox t H3) as [r Hr].
    exists r. unfold Api.analyze_text, analyze. rewrite Hm, Hr. cbn [bind].
    split; [reflexivity|].
    split; [apply (PathFacts.analyze_single_result _ _ Hr)|].
    rewrite (PathFacts.analyze_single_black_box Hloaded Hbox) in Hr.
    eapply AnalyzerFacts.shape_well_shaped; [exact Hl|apply H3|exact Hr].
  - intros ts k Hk.
    destruct (LoopFacts.comprehension_total (_analyze_single a) ts) as [rs Hrs].
    { intros t. now apply (PathFacts.analyze_single_total Hloaded Hbox). }
    exists rs. unfold Api.analyze_batch.
    rewrite (PathFacts.analyze_batch_black_box Hloaded Hbox) by exact Hk.
    rewrite Hrs. apply LoopFacts.comprehension_Forall2 in Hrs.
    rewrite (Forall2_length Hrs). split; [reflexivity|].
    induction Hrs as [|x y xs ys Hxy _ IH]; simpl; [reflexivity|].
    destruct (PathFacts.analyze_single_result _ _ Hxy) as [-> _]. now rewrite IH.
Qed.

Lemma api_after_startup_witness :
  exists a rs,
    Api.startup_event Samples.mock_hub = (Some a, Ok tt)
    /\ Api.analyze_batch (Some a) Samples.three_texts 2
       = Api.Returns {| Api.results := rs; Api.count := 3 |}.
Proof.
  exists Samples.mock_analyzer.
  assert (Hbb : forall tok m, loaded Samples.mock_analyzer tok m ->
                              black_box tok m (fun _ => Samples.mock_logits)).
  { intros tok m (Ht & Hm & _). injection Ht as <-. injection Hm as <-.
    exact mock_black_box. }
  destruct (@api_after_startup Samples.mock_hub Samples.mock_analyzer
              (fun _ => Samples.mock_logits) eq_refl Hbb (fun _ => eq_refl))
    as [_ Hb].
  destruct (Hb Samples.three_texts 2%Z ltac:(lia)) as (rs & Hrs & _).
  exists rs. split; [reflexivity|exact Hrs].
Defined.

(** X18: the handlers turn every failure into a 500 that carries the
    exception and never validate the request.  Before startup (no analyzer)
    both answer 500; [POST /analyze/batch] with [batch_size = 0] answers 500
    with the [ValueError] of [range]; with a negative [batch_size] it answers
    normally with no results and [count = 0], whatever the texts; and
    whenever it answers normally [count] is the number of results. *)
Theorem api_failures (a : MultilingualSentimentAnalyzer)
    (request_text : Py.str) (request_texts : list Py.str) (batch_size : Z) :
  Api.analyze_text None request_text = Api.HTTPException 500 Api.AttributeError
  /\ Api.analyze_batch None request_texts batch_size
     = Api.HTTPException 500 Api.AttributeError
  /\ Api.analyze_batch (Some a) request_texts 0 = Api.HTTPException 500 ValueError
  /\ ((batch_size < 0)%Z ->
      Api.analyze_batch (Some a) request_texts batch_size
      = Api.Returns {| Api.results := []; Api.count := 0 |})
  /\ (forall body,
        Api.analyze_batch (Some a) request_texts batch_size = Api.Returns body ->
        Api.count body = List.length (Api.results body)
        /\ analyze_batch a request_texts batch_size = Ok (Api.results body))
  /\ (forall status detail,
        Api.analyze_batch (Some a) request_texts batch_size
        = Api.HTTPException status detail ->
        status = 500
        /\ analyze_batch a request_texts batch_size = Raise detail).
Proof.
  split; [reflexivity|]. split; [reflexivity|]. split; [reflexivity|].
  split; [|split].
  - intros Hk. unfold Api.analyze_batch, analyze_batch, range0.
    destruct (Z.eqb_spec batch_size 0); [lia|].
    destruct (Z.ltb_spec batch_size 0); [|lia]. reflexivity.
  - intros body. unfold Api.analyze_batch.
    destruct (analyze_batch a request_texts batch_size); [|discriminate].
    intros [= <-]. split; reflexivity.
  - intros status detail. unfold Api.analyze_batch.
    destruct (analyze_batch a request_texts batch_size); [discriminate|].
    intros [= <- <-]. split; reflexivity.
Qed.

Lemma api_failures_witness :
  Api.analyze_batch (Some Samples.mock_analyzer) Samples.three_texts (-5)
  = Api.Returns {| Api.results := []; Api.count := 0 |}.
Proof.
  destruct (api_failures Samples.mock_analyzer Samples.hello Samples.three_texts (-5))
    as (_ & _ & _ & H & _).
  apply H. lia.
Defined.

(** ** The batch command *)

Module CliFacts.
Import Py Spec PyFacts SentimentModel.
Local Open Scope result_scope.

Lemma lstrip_starts (s : str) : starts_with_space (lstrip s) = false.
Proof.
  induction s as [|c r IH]; simpl; [reflexivity|].
  destruct (is_space c) eqn:E; [exact IH|]. simpl. exact E.
Qed.

Lemma lstrip_suffix (s : str) :
  exists p, s = p ++ lstrip s /\ forallb is_space p = true.
Proof.
  induction s as [|c r (p & E & Hp)]; [now exists []|]. simpl.
  destruct (is_space c) eqn:Hc.
  - exists (c :: p). simpl. rewrite Hc, Hp. split; [now rewrite <- E|reflexivity].
  - now exists [].
Qed.

Lemma rstrip_prefix (s : str) :
  exists q, s = rstrip s ++ q /\ forallb is_space q = true.
Proof.
  unfold rstrip. destruct (lstrip_suffix (rev s)) as (p & E & Hp).
  exists (rev p). split.
  - rewrite <- rev_app_distr, <- E. now rewrite rev_involutive.
  - rewrite forallb_forall in *. intros c Hc. apply Hp. now apply in_rev.
Qed.

Lemma rstrip_starts (s : str) :
  starts_with_space s = false -> starts_with_space (rstrip s) = false.
Proof.
  intros Hs. destruct (rstrip_prefix s) as (q & E & _).
  destruct (rstrip s) as [|c r]; [reflexivity|].
  rewrite E in Hs. exact Hs.
Qed.

Lemma rstrip_ends (s : str) : ends_with_space (rstrip s) = false.
Proof.
  unfold ends_with_space, rstrip. rewrite rev_involutive. apply lstrip_starts.
Qed.

(** A stripped text neither starts nor ends with whitespace. *)
Lemma strip_shape (s : str) :
  starts_with_space (strip s) = false /\ ends_with_space (strip s) = false.
Proof.
  unfold strip. split; [apply rstrip_starts, lstrip_starts|apply rstrip_ends].
Qed.

Lemma strip_idempotent (s : str) : strip (strip s) = strip s.
Proof. destruct (strip_shape s). now apply strip_id. Qed.

Lemma tally_cons (label : string) (r : AnalysisResult) (rs : list AnalysisResult) :
  SpecTools.tally label (r :: rs)
  = (if String.eqb label (sentiment r) then 1 else 0) + SpecTools.tally label rs.
Proof.
  unfold SpecTools.tally. cbn [filter].
  now destruct (String.eqb label (sentiment r)).
Qed.

Ltac eval_eqb :=
  repeat match goal with
         | |- context [String.eqb ?a ?b] =>
             let v := eval vm_compute in (String.eqb a b) in
             change (String.eqb a b) with v
         end.

(** The first loop of the summary counts each of the three sentiments. *)
Lemma count_sentiments_from (rs : list AnalysisResult) (p u n : nat) :
  Forall (fun r => In (sentiment r) default_labels) rs ->
  for_each (fun counts r => Cli.increment counts (sentiment r)) rs
    [("positive", p); ("neutral", u); ("negative", n)]%string
  = Ok [("positive", p + SpecTools.tally "positive" rs);
        ("neutral", u + SpecTools.tally "neutral" rs);
        ("negative", n + SpecTools.tally "negative" rs)]%string.
Proof.
  intros H. revert p u n.
  induction H as [|r rs Hr _ IH]; intros p u n.
  - unfold SpecTools.tally. simpl. now rewrite !Nat.add_0_r.
  - cbn [for_each]. rewrite !tally_cons. simpl in Hr.
    destruct Hr as [E|[E|[E|[]]]]; rewrite <- E;
      cbn [Cli.increment]; eval_eqb; cbn [bind]; rewrite IH;
      cbn [Nat.add]; rewrite ?Nat.add_succ_r; reflexivity.
Qed.

Lemma tally_total (rs : list AnalysisResult) :
  Forall (fun r => In (sentiment r) default_labels) rs ->
  SpecTools.tally "positive" rs + SpecTools.tally "neutral" rs
  + SpecTools.tally "negative" rs = List.length rs.
Proof.
  induction 1 as [|r rs Hr _ IH]; [reflexivity|].
  rewrite !tally_cons. cbn [List.length]. simpl in Hr.
  destruct Hr as [E|[E|[E|[]]]]; rewrite <- E; eval_eqb; cbv iota; lia.
Qed.

End CliFacts.

Example read_texts_file :
  Cli.read_texts MoreSamples.file_lines = [lit "I love this!"; lit "It's okay."].
Proof. reflexivity. Qed.

(** X19: the texts that [batch_command] reads from a file are never empty and
    carry no leading or trailing whitespace (stripping them again changes
    nothing); blank lines are dropped, so there are at most as many texts as
    lines. *)
Theorem read_texts_stripped (lines : list str) :
  Forall (fun t => t <> [] /\ strip t = t
                   /\ starts_with_space t = false /\ ends_with_space t = false)
         (Cli.read_texts lines)
  /\ List.length (Cli.read_texts lines) <= List.length lines.
Proof.
  unfold Cli.read_texts. split.
  - apply Forall_map, Forall_forall. intros line Hin.
    apply filter_In in Hin. destruct Hin as [_ Hne].
    destruct (CliFacts.strip_shape line) as [Hs He].
    repeat split; try assumption.
    + intros E. now rewrite E in Hne.
    + apply CliFacts.strip_idempotent.
  - rewrite length_map. apply filter_length_le.
Qed.

(** X20: the summary of [batch_command].  When the file has no non-blank line
    and the batch size is not zero, the command ends in a
    [ZeroDivisionError] (the percentage divides by the number of results);
    the same happens for any file with a negative batch size.  With a loaded
    analyzer whose model is a function of the text with three logits, a batch
    size of at least one and at least one text, the summary lists positive,
    neutral and negative, in that order, with counts that add up to the
    number of texts and percentages that add up to 100. *)
Theorem batch_command_summary (self : MultilingualSentimentAnalyzer)
    (tok : Tokenizer) (m : Model) (f : Py.str -> list R)
    (lines : list str) (batch_size : Z) :
  (Cli.read_texts lines = [] -> batch_size <> 0%Z ->
   Cli.batch_command self lines batch_size = Raise Cli.ZeroDivisionError)
  /\ ((batch_size < 0)%Z ->
      Cli.batch_command self lines batch_size = Raise Cli.ZeroDivisionError)
  /\ (loaded self tok m -> black_box tok m f ->
      (forall t, List.length (f t) = 3) ->
      (1 <= batch_size)%Z -> Cli.read_texts lines <> [] ->
      exists p u n pp pu pn,
        Cli.batch_command self lines batch_size
        = Ok [("positive", p, pp); ("neutral", u, pu); ("negative", n, pn)]%string
        /\ p + u + n = List.length (Cli.read_texts lines)
        /\ (pp + pu + pn == 100)%Q).
Proof.
  assert (Hneg : (batch_size < 0)%Z ->
                 Cli.batch_command self lines batch_size = Raise Cli.ZeroDivisionError).
  { intros Hk. unfold Cli.batch_command, analyze_batch, range0.
    destruct (Z.eqb_spec batch_size 0); [lia|].
    destruct (Z.ltb_spec batch_size 0); [|lia]. reflexivity. }
  split; [|split; [exact Hneg|]].
  - intros He Hk. destruct (Z.lt_ge_cases batch_size 0) as [Hlt|Hge]; [now apply Hneg|].
    unfold Cli.batch_command. rewrite He. unfold analyze_batch, range0.
    destruct (Z.eqb_spec batch_size 0); [lia|].
    destruct (Z.ltb_spec batch_size 0); [lia|].
    cbn [List.length]. rewrite Nat.add_0_l.
    rewrite Nat.div_small by lia. reflexivity.
  - intros Hloaded Hbox H3 Hk Hne.
    unfold Cli.batch_command.
    set (texts := Cli.read_texts lines) in *.
    destruct (LoopFacts.comprehension_total (_analyze_single self) texts) as [rs Hrs].
    { intros t. now apply (PathFacts.analyze_single_total Hloaded Hbox). }
    rewrite (PathFacts.analyze_batch_black_box Hloaded Hbox) by exact Hk.
    rewrite Hrs. cbn [bind].
    apply LoopFacts.comprehension_Forall2 in Hrs.
    assert (Hlen : List.length rs = List.length texts)
      by (symmetry; eapply Forall2_length; exact Hrs).
    assert (Hlabels : Forall (fun r => In (sentiment r) default_labels) rs).
    { clear Hne Hlen. induction Hrs as [|x y xs ys Hxy _ IH]; constructor; [|exact IH].
      rewrite (PathFacts.analyze_single_black_box Hloaded Hbox) in Hxy.
      destruct (WrapperFacts.shape_inv _ _ _ Hxy) as (_ & _ & i & _ & Hi).
      destruct Hloaded as (_ & _ & Hl). rewrite Hl in Hi.
      eapply nth_error_In; exact Hi. }
    unfold Cli.summary, Cli.count_sentiments, Cli.initial_counts.
    rewrite (@CliFacts.count_sentiments_from rs 0 0 0 Hlabels).
    cbn [bind comprehension fst snd Nat.add].
    pose proof (CliFacts.tally_total Hlabels) as Htotal.
    destruct (List.length rs) as [|k] eqn:Ek.
    { destruct texts; [congruence|discriminate]. }
    cbn [Cli.percentage bind].
    do 6 eexists. split; [reflexivity|]. split; [lia|].
    set (a := tally "positive" rs) in *. set (b := tally "neutral" rs) in *.
    set (c := tally "negative" rs) in *.
    assert (Hq : (inject_Z (Z.of_nat a) + inject_Z (Z.of_nat b) + inject_Z (Z.of_nat c)
                  == inject_Z (Z.of_nat (S k)))%Q).
    { rewrite <- !inject_Z_plus. now rewrite <- !Nat2Z.inj_add, Htotal. }
    assert (Hnz : ~ (inject_Z (Z.of_nat (S k)) == 0)%Q).
    { unfold Qeq. simpl. lia. }
    transitivity ((inject_Z (Z.of_nat a) + inject_Z (Z.of_nat b)
                   + inject_Z (Z.of_nat c)) / inject_Z (Z.of_nat (S k)) * 100)%Q.
    + field. exact Hnz.
    + rewrite Hq. field. exact Hnz.
Qed.

Lemma batch_command_summary_witness :
  Cli.batch_command Samples.mock_analyzer [] 32 = Raise Cli.ZeroDivisionError
  /\ exists p u n pp pu pn,
       Cli.batch_command Samples.mock_analyzer MoreSamples.file_lines 32
       = Ok [("positive", p, pp); ("neutral", u, pu); ("negative", n, pn)]%string
       /\ p + u + n = 2.
Proof.
  destruct (batch_command_summary Samples.mock_analyzer Samples.mock_tokenizer
              Samples.mock_model (fun _ => Samples.mock_logits) [] 32)
    as (He & _ & _).
  split; [apply He; [reflexivity|lia]|].
  destruct (batch_command_summary Samples.mock_analyzer Samples.mock_tokenizer
              Samples.mock_model (fun _ => Samples.mock_logits)
              MoreSamples.file_lines 32)
    as (_ & _ & Hs).
  destruct (Hs mock_loaded mock_black_box (fun _ => eq_refl) ltac:(lia)
              ltac:(discriminate))
    as (p & u & n & pp & pu & pn & Hb & Hsum & _).
  exists p, u, n, pp, pu, pn. split; [exact Hb|exact Hsum].
Defined.

(** ** Hashtags and mentions in a cleaned text *)

Module CleanTagFacts.
Import Py PyRe TextProcessor Spec SpecTools PyFacts.

Section Marker.
Variable U : UnicodeTables.
Variable m : codepoint.

Lemma has_marked_findall (s : str) :
  has_marked U m s = false <-> findall (match_marked U m) s = [].
Proof.
  induction s as [|c s Hc IH|w s Hne Hw Hs IH] using (MarkedFacts.marked_ind U m).
  - split; reflexivity.
  - rewrite MarkedFacts.findall_plain by exact Hc.
    cbn [has_marked]. rewrite Hc. exact IH.
  - rewrite MarkedFacts.findall_token by assumption.
    cbn [has_marked]. rewrite N.eqb_refl.
    destruct w as [|d w]; [congruence|]. simpl in Hw.
    apply andb_prop in Hw. destruct Hw as [Hd _]. simpl. rewrite Hd.
    split; discriminate.
Qed.

Lemma has_marked_suffix (a b : str) :
  has_marked U m (a ++ b) = false -> has_marked U m b = false.
Proof.
  induction a as [|c a IH]; [trivial|]. cbn [app has_marked].
  intros H. apply orb_false_iff in H. now apply IH.
Qed.

Lemma has_marked_prefix (a b : str) :
  has_marked U m (a ++ b) = false -> has_marked U m a = false.
Proof.
  induction a as [|c a IH]; [reflexivity|]. cbn [app has_marked].
  intros H. apply orb_false_iff in H. destruct H as [H1 H2].
  rewrite (IH H2), orb_false_r.
  destruct a as [|d a]; [now rewrite andb_false_r|exact H1].
Qed.

(** Replacing what follows a prefix by a text that starts with a character
    that is not a word character creates no match in the prefix. *)
Lemma has_marked_splice (a b j : str) (sp : codepoint) :
  is_word U sp = false ->
  has_marked U m (a ++ b) = false -> has_marked U m (sp :: j) = false ->
  has_marked U m (a ++ sp :: j) = false.
Proof.
  intros Hsp. induction a as [|c a IH]; [trivial|]. cbn [app has_marked].
  intros H Hj. apply orb_false_iff in H. destruct H as [H1 H2].
  rewrite (IH H2 Hj), orb_false_r.
  destruct a as [|d a]; [simpl; now rewrite Hsp, andb_false_r|exact H1].
Qed.

Lemma has_marked_join_split (sp : codepoint) (s cur : str) :
  is_word U sp = false -> (sp =? m)%N = false ->
  has_marked U m (rev cur ++ s) = false ->
  has_marked U m (join [sp] (split_from cur s)) = false.
Proof.
  intros Hsp Hm. revert cur. induction s as [|c r IH]; intros cur H.
  - rewrite app_nil_r in H. cbn [split_from].
    destruct cur as [|d cur']; [reflexivity|exact H].
  - cbn [split_from]. destruct (is_space c).
    + destruct cur as [|d cur'].
      * apply (IH []). simpl in *. apply orb_false_iff in H. apply H.
      * assert (Hr : has_marked U m (join [sp] (split_from [] r)) = false).
        { apply (IH []). simpl.
          apply has_marked_suffix in H. simpl in H.
          apply orb_false_iff in H. apply H. }
        cbn [join]. destruct (split_from [] r) as [|w ws] eqn:E.
        -- now apply has_marked_prefix in H.
        -- change ([sp] ++ join [sp] (w :: ws)) with (sp :: join [sp] (w :: ws)).
           eapply has_marked_splice; [exact Hsp|exact H|].
           cbn [has_marked]. rewrite Hm. exact Hr.
    + apply IH. cbn [rev]. now rewrite <- app_assoc.
Qed.

End Marker.

(** Deleting the hashtags creates no mention. *)
Lemma hashtag_removal_keeps_mention_free (U : UnicodeTables) (s : str) :
  has_marked U at_sign s = false ->
  has_marked U at_sign (hashtag_step U true s) = false.
Proof.
  unfold hashtag_step, hashtag_pattern.
  induction s as [|c s Hc IH|w s Hne Hw Hs IH]
    using (MarkedFacts.marked_ind U hash_sign).
  - trivial.
  - rewrite MarkedFacts.sub_plain by exact Hc. cbn [has_marked].
    intros H. apply orb_false_iff in H. destruct H as [H1 H2].
    rewrite (IH H2), orb_false_r.
    destruct (c =? at_sign)%N; [|reflexivity]. simpl in *.
    now apply MarkedFacts.removed_starts.
  - rewrite MarkedFacts.sub_token by assumption. simpl.
    intros H. apply IH.
    change (hash_sign :: w ++ s) with ((hash_sign :: w) ++ s) in H.
    now apply has_marked_suffix in H.
Qed.

End CleanTagFacts.

Example clean_text_can_leave_a_mention :
  clean_text excerpt_tables default_options (lit "@#user") = lit "@user".
Proof. reflexivity. Qed.

(** X21: with [remove_hashtags] on, and [remove_emojis] and [lowercase] off, a
    cleaned text contains no hashtag: [extract_hashtags] finds nothing in it.
    If [remove_mentions] is on as well, [extract_mentions] finds nothing in it
    either. *)
Theorem cleaned_text_has_no_tags (U : UnicodeTables) (o : CleaningOptions) (t : str) :
  remove_hashtags o = true -> remove_emojis o = false -> lowercase o = false ->
  extract_hashtags U (clean_text U o t) = []
  /\ (remove_mentions o = true -> extract_mentions U (clean_text U o t) = []).
Proof.
  intros Hh He Hl.
  destruct t as [|c r]; [split; reflexivity|].
  unfold clean_text, after_hashtags. rewrite Hh, He, Hl.
  set (x := before_hashtags U o (c :: r)).
  set (y := hashtag_step U true x).
  assert (Hw : Forall (fun w => w <> [] /\ spaceless w) (split y))
    by (apply PyFacts.split_from_words; reflexivity).
  destruct (PyFacts.join_shape (lit " ") (words := split y)) as (Hs & Hend & _);
    [reflexivity|exact Hw|].
  rewrite PyFacts.strip_id by assumption.
  change (lit " ") with [0x20%N]. unfold split.
  split.
  - unfold extract_hashtags, hashtag_pattern.
    assert (Hy : findall (match_marked U hash_sign) y = []).
    { pose proof (MarkedFacts.names_removed U hash_sign x) as H.
      now apply map_eq_nil in H. }
    apply CleanTagFacts.has_marked_findall in Hy.
    assert (Hj : has_marked U hash_sign (join [0x20%N] (split_from [] y)) = false)
      by (apply CleanTagFacts.has_marked_join_split; [reflexivity|reflexivity|exact Hy]).
    apply CleanTagFacts.has_marked_findall in Hj. now rewrite Hj.
  - intros Hm. unfold extract_mentions, mention_pattern.
    assert (Hx : has_marked U at_sign x = false).
    { apply CleanTagFacts.has_marked_findall.
      unfold x, before_hashtags. rewrite Hm.
      pose proof (MarkedFacts.names_removed U at_sign
                    (let text := if normalize_unicode o then nfkc U (c :: r) else c :: r in
                     if remove_urls o then sub url_pattern delete text else text)) as H.
      now apply map_eq_nil in H. }
    assert (Hy : has_marked U at_sign y = false)
      by now apply CleanTagFacts.hashtag_removal_keeps_mention_free.
    assert (Hj : has_marked U at_sign (join [0x20%N] (split_from [] y)) = false)
      by (apply CleanTagFacts.has_marked_join_split; [reflexivity|reflexivity|exact Hy]).
    apply CleanTagFacts.has_marked_findall in Hj. now rewrite Hj.
Qed.

Lemma cleaned_text_has_no_tags_witness :
  extract_hashtags excerpt_tables
    (clean_text excerpt_tables removals_without_emojis MoreSamples.tagged) = []
  /\ extract_mentions excerpt_tables
       (clean_text excerpt_tables removals_without_emojis MoreSamples.tagged) = [].
Proof.
  destruct (@cleaned_text_has_no_tags excerpt_tables removals_without_emojis
              MoreSamples.tagged eq_refl eq_refl eq_refl) as [Hh Hm].
  split; [exact Hh|exact (Hm eq_refl)].
Defined.
